(** * Stock-price pipeline: cleaning stage and feature stage

    A shallow embedding of [clean_data] (src/clean_data.py) and
    [engineer_features] (src/feature_engineering.py).

    A pandas DataFrame is a list of rows, in index order.  A cell of a price
    column is a number, NaN, or a non-numeric object (what [read_csv] leaves
    in an object column); a cell of the DATE column is NaT, a string still to
    be parsed, or a timestamp.  Numbers are exact rationals: rounding,
    overflow and division by zero of binary floating point are outside the
    model, and every statement about derived values is made for cleaned
    frames, whose closes are strictly positive.  The square root used by the
    rolling standard deviation and the date parser behind [pd.to_datetime]
    are parameters. *)

From Stdlib Require Import String Ascii ZArith QArith Bool Arith Lia.
From Stdlib Require Import OrderedTypeEx Sorted Permutation List.
Import ListNotations.

Local Open Scope nat_scope.

(* ================================================================== *)
(** * Outcomes of a stage *)

Inductive error : Type :=
| ExitInvalidDate   (* logger.error("Invalid DATE parsing: ..."); sys.exit(1) *)
| TypeError         (* uncaught: '>' or '/' applied to a str cell *)
| DateParseError    (* uncaught: pd.to_datetime outside a try block *)
| NoObjectsToConcatenate. (* uncaught ValueError of pd.concat([]) *)

Inductive result (A : Type) : Type :=
| Ok (a : A)
| Raise (e : error).

Arguments Ok {A} a.
Arguments Raise {A} e.

Definition bind {A B : Type} (m : result A) (k : A -> result B) : result B :=
  match m with
  | Ok a => k a
  | Raise e => Raise e
  end.

Notation "x <- m ;; k" := (bind m (fun x => k))
  (at level 61, m at next level, right associativity).

Fixpoint mapM {A B : Type} (f : A -> result B) (l : list A) : result (list B) :=
  match l with
  | [] => Ok []
  | a :: l' => b <- f a ;; bs <- mapM f l' ;; Ok (b :: bs)
  end.

(* ================================================================== *)
(** * Stable sorting by a boolean order

    [DataFrame.sort_values] on several keys goes through a lexicographic
    indexer that keeps equal keys in index order.  Insertion from the right
    is the reference stable sort: [x] is put in front of the first element
    it does not exceed. *)

Section StableSort.
Variable A : Type.
Variable leb : A -> A -> bool.

Fixpoint insert (x : A) (l : list A) : list A :=
  match l with
  | [] => [x]
  | y :: l' => if leb x y then x :: l else y :: insert x l'
  end.

Fixpoint sort (l : list A) : list A :=
  match l with
  | [] => []
  | x :: l' => insert x (sort l')
  end.

(** Two elements tie when each is below the other. *)
Definition tie (x y : A) : bool := leb x y && leb y x.
End StableSort.

Arguments insert [A] leb x l.
Arguments sort [A] leb l.
Arguments tie [A] leb x y.

(* ================================================================== *)
(** * Data model *)

Inductive date_cell : Type :=
| NaT
| DateStr (s : string)
| Timestamp (t : Z).

Inductive num_cell : Type :=
| NaN
| Num (q : Q)
| NonNumeric (s : string).

Record Row : Type := mkRow {
  TICKER : option string;
  DATE : date_cell;
  Price_Open : num_cell;
  Price_Close : num_cell;
  Price_High : num_cell;
  Price_Low : num_cell;
  Volume : num_cell
}.

Definition DataFrame : Type := list Row.

Definition set_DATE (d : date_cell) (r : Row) : Row :=
  mkRow (TICKER r) d (Price_Open r) (Price_Close r) (Price_High r)
        (Price_Low r) (Volume r).

(** price_cols = ['Price_Open', 'Price_Close', 'Price_High', 'Price_Low', 'Volume'] *)
Definition price_cols : list (Row -> num_cell) :=
  [Price_Open; Price_Close; Price_High; Price_Low; Volume].

(* ------------------------------------------------------------------ *)
(** ** pd.to_datetime(df['DATE']) *)

Definition to_datetime_cell (parse_date : string -> option Z) (c : date_cell)
  : option date_cell :=
  match c with
  | NaT => Some NaT
  | Timestamp t => Some (Timestamp t)
  | DateStr s =>
      match parse_date s with
      | Some t => Some (Timestamp t)
      | None => None
      end
  end.

(** The whole column is converted or the call raises: [e] is what the
    caller makes of the exception. *)
Fixpoint to_datetime (parse_date : string -> option Z) (e : error)
  (df : DataFrame) : result DataFrame :=
  match df with
  | [] => Ok []
  | r :: df' =>
      match to_datetime_cell parse_date (DATE r) with
      | None => Raise e
      | Some d => rest <- to_datetime parse_date e df' ;; Ok (set_DATE d r :: rest)
      end
  end.

(* ------------------------------------------------------------------ *)
(** ** df.dropna() *)

Definition notna_num (c : num_cell) : bool :=
  match c with NaN => false | _ => true end.

Definition notna_date (c : date_cell) : bool :=
  match c with NaT => false | _ => true end.

Definition notna_ticker (t : option string) : bool :=
  match t with None => false | Some _ => true end.

Definition notna_row (r : Row) : bool :=
  notna_ticker (TICKER r) && notna_date (DATE r) &&
  forallb (fun col => notna_num (col r)) price_cols.

Definition dropna (df : DataFrame) : DataFrame := filter notna_row df.

(* ------------------------------------------------------------------ *)
(** ** df = df[df[col] > 0] *)

Definition Qpositive (q : Q) : bool := negb (Qle_bool q 0).

(** [cell > 0]: NaN compares false, a str cell raises. *)
Definition gt_zero (c : num_cell) : result bool :=
  match c with
  | NaN => Ok false
  | Num q => Ok (Qpositive q)
  | NonNumeric _ => Raise TypeError
  end.

(** The mask [df[col] > 0] is computed for the whole column before any row
    is selected. *)
Definition filter_gt_zero (col : Row -> num_cell) (df : DataFrame)
  : result DataFrame :=
  mask <- mapM (fun r => gt_zero (col r)) df ;;
  Ok (map fst (filter snd (combine df mask))).

(** for col in price_cols: df = df[df[col] > 0] *)
Fixpoint filter_positive (cols : list (Row -> num_cell)) (df : DataFrame)
  : result DataFrame :=
  match cols with
  | [] => Ok df
  | col :: cols' => df' <- filter_gt_zero col df ;; filter_positive cols' df'
  end.

(* ------------------------------------------------------------------ *)
(** ** Sort keys; NaN and NaT are placed last *)

Definition option_leb {K : Type} (leb : K -> K -> bool) (x y : option K) : bool :=
  match x, y with
  | Some a, Some b => leb a b
  | _, None => true
  | None, Some _ => false
  end.

(** Value of a converted DATE cell (a string cell does not survive
    [to_datetime]). *)
Definition date_value (c : date_cell) : option Z :=
  match c with
  | Timestamp t => Some t
  | _ => None
  end.

Definition ticker_leb (r1 r2 : Row) : bool :=
  option_leb String.leb (TICKER r1) (TICKER r2).

Definition date_leb (r1 r2 : Row) : bool :=
  option_leb Z.leb (date_value (DATE r1)) (date_value (DATE r2)).

(** Lexicographic order on (TICKER, DATE). *)
Definition ticker_date_leb (r1 r2 : Row) : bool :=
  if ticker_leb r1 r2
  then (if ticker_leb r2 r1 then date_leb r1 r2 else true)
  else false.

(** df.sort_values(by=['TICKER', 'DATE']) *)
Definition sort_values_TICKER_DATE (df : DataFrame) : DataFrame :=
  sort ticker_date_leb df.

(** group.sort_values('DATE').  A single key is sorted by the default
    quicksort, which promises no order among equal dates; the index order is
    taken for them here. *)
Definition sort_values_DATE (df : DataFrame) : DataFrame :=
  sort date_leb df.

(* ------------------------------------------------------------------ *)
(** ** The cleaning stage *)

Definition clean_data (parse_date : string -> option Z) (df : DataFrame)
  : result DataFrame :=
  df1 <- to_datetime parse_date ExitInvalidDate df ;;
  let df2 := dropna df1 in
  df3 <- filter_positive price_cols df2 ;;
  Ok (sort_values_TICKER_DATE df3).

(* ================================================================== *)
(** * The feature stage *)

(** A float64 series: [None] is NaN. *)
Definition Series : Type := list (option Q).

(** Reading a column as floats; arithmetic on a str cell raises. *)
Definition as_float (c : num_cell) : result (option Q) :=
  match c with
  | NaN => Ok None
  | Num q => Ok (Some q)
  | NonNumeric _ => Raise TypeError
  end.

(* ------------------------------------------------------------------ *)
(** ** Series.pct_change(): data / data.shift(1) - 1

    A NaN operand gives NaN.  The forward fill of older pandas versions and
    the division by a zero close change nothing on a cleaned frame and are
    not modelled. *)

Definition shift1 (xs : Series) : Series := None :: xs.

Definition pct (prev cur : option Q) : option Q :=
  match prev, cur with
  | Some p, Some c => Some (c / p - 1)%Q
  | _, _ => None
  end.

Definition pct_change (xs : Series) : Series :=
  map (fun pc => pct (fst pc) (snd pc)) (combine (shift1 xs) xs).

(* ------------------------------------------------------------------ *)
(** ** Series.rolling(window=w): min_periods defaults to the window size *)

(** The trailing window ending at index [i]: indices [i+1-w .. i], cut at 0. *)
Definition window (w i : nat) (xs : Series) : Series :=
  let start := S i - w in
  firstn (S i - start) (skipn start xs).

(** The observations of a window: its non-NaN values. *)
Fixpoint observations (xs : Series) : list Q :=
  match xs with
  | [] => []
  | Some q :: xs' => q :: observations xs'
  | None :: xs' => observations xs'
  end.

Definition rolling (w : nat) (agg : list Q -> Q) (xs : Series) : Series :=
  map (fun i =>
         let obs := observations (window w i xs) in
         if w <=? length obs then Some (agg obs) else None)
      (seq 0 (length xs)).

Definition Qsum (l : list Q) : Q := fold_right Qplus 0%Q l.

Definition Qlen (l : list Q) : Q := inject_Z (Z.of_nat (length l)).

(** .mean() *)
Definition mean (obs : list Q) : Q := (Qsum obs / Qlen obs)%Q.

(** .std(): ddof = 1, the sum of squared deviations from the mean over
    [nobs - ddof], then the square root. *)
Definition ddof : Q := 1%Q.

Definition ssqdm (obs : list Q) : Q :=
  Qsum (map (fun x => ((x - mean obs) * (x - mean obs))%Q) obs).

Definition var (obs : list Q) : Q := (ssqdm obs / (Qlen obs - ddof))%Q.

Definition std (sqrt : Q -> Q) (obs : list Q) : Q := sqrt (var obs).

(* ------------------------------------------------------------------ *)
(** ** Rows with the four derived columns *)

Record FeaturedRow : Type := mkFeatured {
  base : Row;
  Return_1d : option Q;
  MA_5d : option Q;
  MA_10d : option Q;
  Volatility_10d : option Q
}.

Definition FeaturedFrame : Type := list FeaturedRow.

(** group[name] = series, for the four series: the value at position [i]
    goes to the row at position [i]. *)
Fixpoint assign_from (i : nat) (g : DataFrame) (ret ma5 ma10 vol : Series)
  : FeaturedFrame :=
  match g with
  | [] => []
  | r :: g' =>
      mkFeatured r (nth i ret None) (nth i ma5 None) (nth i ma10 None)
                 (nth i vol None)
      :: assign_from (S i) g' ret ma5 ma10 vol
  end.

(** The body of the loop over groups. *)
Definition feature_frame (sqrt : Q -> Q) (group : DataFrame)
  : result FeaturedFrame :=
  let group := sort_values_DATE group in
  close <- mapM (fun r => as_float (Price_Close r)) group ;;
  let ret := pct_change close in
  let ma5 := rolling 5 mean close in
  let ma10 := rolling 10 mean close in
  let vol := rolling 10 (std sqrt) ret in
  Ok (assign_from 0 group ret ma5 ma10 vol).

(* ------------------------------------------------------------------ *)
(** ** df.groupby('TICKER'): keys sorted, NaN keys dropped *)

Fixpoint ticker_values (df : DataFrame) : list string :=
  match df with
  | [] => []
  | r :: df' =>
      match TICKER r with
      | Some t => t :: ticker_values df'
      | None => ticker_values df'
      end
  end.

Definition group_keys (df : DataFrame) : list string :=
  sort String.leb (nodup string_dec (ticker_values df)).

Definition has_ticker (t : string) (r : Row) : bool :=
  match TICKER r with
  | Some t' => String.eqb t t'
  | None => false
  end.

Definition get_group (t : string) (df : DataFrame) : DataFrame :=
  filter (has_ticker t) df.

Definition groupby_TICKER (df : DataFrame) : list (string * DataFrame) :=
  map (fun t => (t, get_group t df)) (group_keys df).

(* ------------------------------------------------------------------ *)
(** ** pd.concat(frames, ignore_index=True) and final_df.dropna() *)

Definition pd_concat (frames : list FeaturedFrame) : result FeaturedFrame :=
  match frames with
  | [] => Raise NoObjectsToConcatenate
  | _ => Ok (concat frames)
  end.

Definition notna_float (x : option Q) : bool :=
  match x with None => false | Some _ => true end.

Definition notna_featured (r : FeaturedRow) : bool :=
  notna_row (base r) && notna_float (Return_1d r) && notna_float (MA_5d r) &&
  notna_float (MA_10d r) && notna_float (Volatility_10d r).

Definition dropna_featured (df : FeaturedFrame) : FeaturedFrame :=
  filter notna_featured df.

(* ------------------------------------------------------------------ *)
(** ** The feature stage *)

Definition engineer_features (parse_date : string -> option Z) (sqrt : Q -> Q)
  (df : DataFrame) : result FeaturedFrame :=
  df <- to_datetime parse_date DateParseError df ;;
  feature_frames <- mapM (fun tg => feature_frame sqrt (snd tg)) (groupby_TICKER df) ;;
  final_df <- pd_concat feature_frames ;;
  Ok (dropna_featured final_df).

(* ================================================================== *)
(** * Cleaned frames

    The PriceRecord invariant: every field present, the date a timestamp,
    the five numeric fields strictly positive. *)

Definition positive_cell (c : num_cell) : bool :=
  match c with
  | Num q => Qpositive q
  | _ => false
  end.

Definition is_timestamp (c : date_cell) : bool :=
  match c with Timestamp _ => true | _ => false end.

Definition price_record (r : Row) : bool :=
  notna_ticker (TICKER r) && is_timestamp (DATE r) &&
  forallb (fun col => positive_cell (col r)) price_cols.

Definition cleaned (df : DataFrame) : bool := forallb price_record df.

(** What the invariant says, cell by cell. *)
Definition PriceRecord (r : Row) : Prop :=
  exists t d o c h l v,
    r = mkRow (Some t) (Timestamp d) (Num o) (Num c) (Num h) (Num l) (Num v) /\
    (0 < o)%Q /\ (0 < c)%Q /\ (0 < h)%Q /\ (0 < l)%Q /\ (0 < v)%Q.

(** A raw row is dropped when a field is missing or a price is not a
    positive number. *)
Definition violates (r : Row) : bool :=
  negb (notna_ticker (TICKER r) && notna_date (DATE r) &&
        forallb (fun col => positive_cell (col r)) price_cols).

(** Price and volume cells that are numbers or NaN. *)
Definition numeric_cell (c : num_cell) : bool :=
  match c with NonNumeric _ => false | _ => true end.

Definition numeric_row (r : Row) : bool :=
  forallb (fun col => numeric_cell (col r)) price_cols.

(** A DATE cell is converted once [to_datetime] has run over it. *)
Definition converted (r : Row) : bool :=
  match DATE r with DateStr _ => false | _ => true end.

(** Conversion touches the DATE column only. *)
Definition same_but_DATE (r r' : Row) : Prop :=
  TICKER r' = TICKER r /\ Price_Open r' = Price_Open r /\
  Price_Close r' = Price_Close r /\ Price_High r' = Price_High r /\
  Price_Low r' = Price_Low r /\ Volume r' = Volume r.

Definition conversion_of (p : string -> option Z) (r r' : Row) : Prop :=
  same_but_DATE r r' /\ to_datetime_cell p (DATE r) = Some (DATE r').

(** Rows share a sort key when ticker and date agree. *)
Definition option_eqb {K : Type} (eqb : K -> K -> bool) (x y : option K) : bool :=
  match x, y with
  | Some a, Some b => eqb a b
  | None, None => true
  | _, _ => false
  end.

Definition same_key (r1 r2 : Row) : bool :=
  option_eqb String.eqb (TICKER r1) (TICKER r2) &&
  option_eqb Z.eqb (date_value (DATE r1)) (date_value (DATE r2)).

(** (TICKER, DATE) ascending, in words: the ticker is smaller, or the tickers
    agree and the date is not later. *)
Definition key_le (r1 r2 : Row) : Prop :=
  exists t1 d1 t2 d2,
    TICKER r1 = Some t1 /\ DATE r1 = Timestamp d1 /\
    TICKER r2 = Some t2 /\ DATE r2 = Timestamp d2 /\
    (String.ltb t1 t2 = true \/ (t1 = t2 /\ (d1 <= d2)%Z)).

(** The close of a cleaned row. *)
Definition close_of (r : Row) : Q :=
  match Price_Close r with
  | Num q => q
  | _ => 0%Q
  end.

(** The output rows of ticker [t]. *)
Definition rows_of (t : string) (out : FeaturedFrame) : FeaturedFrame :=
  filter (fun x => has_ticker t (base x)) out.

(* ================================================================== *)
(** * The derived columns in the words of the specification *)

(** The arithmetic mean, and the sample variance: squared deviations from
    the mean, summed and divided by [n - 1]. *)
Definition arithmetic_mean (xs : list Q) : Q :=
  (fold_right Qplus 0 xs / inject_Z (Z.of_nat (length xs)))%Q.

Definition sample_variance (xs : list Q) : Q :=
  (fold_right (fun x acc => (x - arithmetic_mean xs) * (x - arithmetic_mean xs) + acc) 0 xs
   / (inject_Z (Z.of_nat (length xs)) - 1))%Q.

(** The values [xs[k], ..., xs[k+n-1]]. *)
Definition slice (xs : list Q) (k n : nat) : list Q :=
  map (fun j => nth j xs 0%Q) (seq k n).

(** close[i]/close[i-1] - 1 *)
Definition return_at (cs : list Q) (i : nat) : Q :=
  (nth i cs 0 / nth (i - 1) cs 0 - 1)%Q.

(** The columns over the closes [cs] of a group in date order. *)
Definition return_spec (cs : list Q) (i : nat) : option Q :=
  if 1 <=? i then Some (return_at cs i) else None.

Definition ma_spec (w : nat) (cs : list Q) (i : nat) : option Q :=
  if w <=? S i then Some (arithmetic_mean (slice cs (S i - w) w)) else None.

Definition vol_spec (sqrt : Q -> Q) (cs : list Q) (i : nat) : option Q :=
  if 10 <=? i
  then Some (sqrt (sample_variance (map (return_at cs) (seq (i - 9) 10))))
  else None.

(* ================================================================== *)
(** * Closed forms of the feature stage on cleaned frames *)

(** The successive returns of [prev :: cs]. *)
Fixpoint ratios (prev : Q) (cs : list Q) : list Q :=
  match cs with
  | [] => []
  | c :: cs' => (c / prev - 1)%Q :: ratios c cs'
  end.

(** The frame the loop body builds for a group whose closes are numbers. *)
Definition frame_of (sqrt : Q -> Q) (group : DataFrame) : FeaturedFrame :=
  let g := sort_values_DATE group in
  let close := map Some (map close_of g) in
  assign_from 0 g (pct_change close) (rolling 5 mean close)
              (rolling 10 mean close) (rolling 10 (std sqrt) (pct_change close)).

(** Group by group in key order, each group in date order without its first
    ten rows. *)
Definition featured_rows (sqrt : Q -> Q) (df : DataFrame) : FeaturedFrame :=
  concat (map (fun t => skipn 10 (frame_of sqrt (get_group t df)))
              (group_keys df)).

(* ================================================================== *)
(** * Example data *)

(** A date parser: "YYYY-MM-DD" to the number YYYYMMDD. *)
Definition digit (c : ascii) : option Z :=
  let n := nat_of_ascii c in
  if (48 <=? n)%nat && (n <=? 57)%nat then Some (Z.of_nat (n - 48)) else None.

Fixpoint digits (acc : Z) (cs : list ascii) : option Z :=
  match cs with
  | [] => Some acc
  | c :: cs' =>
      match digit c with
      | Some d => digits (10 * acc + d) cs'
      | None => None
      end
  end.

Definition iso_date (s : string) : option Z :=
  match list_ascii_of_string s with
  | [y1; y2; y3; y4; "-"%char; m1; m2; "-"%char; d1; d2] =>
      digits 0 [y1; y2; y3; y4; m1; m2; d1; d2]
  | _ => None
  end.

(** A square root: a few Newton steps from 1. *)
Fixpoint newton (n : nat) (x y : Q) : Q :=
  match n with
  | O => y
  | S n' => newton n' x (Qred ((y + x / y) / 2))%Q
  end.

Definition approx_sqrt (x : Q) : Q :=
  if Qle_bool x 0 then 0%Q else newton 6 x 1%Q.

(** Rows as they come from the provider, with the date still a string. *)
Definition raw_bar (t : string) (d : string) (o c : num_cell) : Row :=
  mkRow (Some t) (DateStr d) o c (Num 5) (Num 1) (Num 100).

Definition clean_bar (t : string) (day : Z) (o c : Q) : Row :=
  mkRow (Some t) (Timestamp day) (Num o) (Num c) (Num 5) (Num 1) (Num 100).

(** Two tickers out of order, one key twice, a null close and a volume of -5. *)
Definition ex_raw : DataFrame :=
  [ raw_bar "MSFT" "2024-01-03" (Num 3) (Num 4);
    raw_bar "AAPL" "2024-01-03" (Num 2) (Num 3);
    raw_bar "AAPL" "2024-01-02" (Num 7) (Num 8);
    raw_bar "AAPL" "2024-01-02" (Num 2) (Num 3);
    raw_bar "AAPL" "2024-01-04" (Num 2) NaN;
    mkRow (Some "AAPL"%string) (DateStr "2024-01-05") (Num 2) (Num 3) (Num 5)
          (Num 1) (Num (-5)) ].

Definition ex_clean : DataFrame :=
  [ clean_bar "AAPL" 20240102 7 8;
    clean_bar "AAPL" 20240102 2 3;
    clean_bar "AAPL" 20240103 2 3;
    clean_bar "MSFT" 20240103 3 4 ].

(** A price column that holds text. *)
Definition ex_non_numeric : DataFrame :=
  [ raw_bar "AAPL" "2024-01-02" (NonNumeric "abc") (Num 3) ].

(** A date that does not parse, in a row with a null open and a negative
    close. *)
Definition ex_bad_date : DataFrame :=
  [ raw_bar "AAPL" "2024-01-02" (Num 2) (Num 3);
    raw_bar "AAPL" "02/01/2024" NaN (Num (-3)) ].

(** Cleaned bars on consecutive days. *)
Definition bar (t : string) (day : Z) (c : Q) : Row :=
  mkRow (Some t) (Timestamp day) (Num c) (Num c) (Num c) (Num c) (Num 100).

Fixpoint bars_from (t : string) (day : Z) (closes : list Q) : DataFrame :=
  match closes with
  | [] => []
  | c :: cs => bar t day c :: bars_from t (day + 1) cs
  end.

Definition spec_closes : list Q :=
  [10; 11; 12; 11; 10; 9; 10; 11; 12; 13; 14]%Q.

Fixpoint interleave (l1 l2 : DataFrame) : DataFrame :=
  match l1 with
  | [] => l2
  | r :: l1' => r :: match l2 with
                     | [] => l1'
                     | r' :: l2' => r' :: interleave l1' l2'
                     end
  end.

(** Eleven bars of one ticker, latest first, mixed with twelve of another. *)
Definition ex_two_tickers : DataFrame :=
  interleave (rev (bars_from "T" 0 spec_closes))
             (bars_from "U" 0 [20; 21; 22; 21; 20; 19; 20; 21; 22; 23; 24; 25]%Q).

(** Ten bars of one ticker and eleven of another. *)
Definition ex_short_history : DataFrame :=
  bars_from "S" 0 [10; 11; 12; 11; 10; 9; 10; 11; 12; 13]%Q
  ++ bars_from "T" 0 spec_closes.





(** The positivity filters run column by column over the rows still there:
    a row reaches a text cell when every earlier price column of it holds a
    positive number. *)
Fixpoint reaches_text (cols : list (Row -> num_cell)) (r : Row) : bool :=
  match cols with
  | [] => false
  | col :: cols' =>
      match col r with
      | NonNumeric _ => true
      | c => positive_cell c && reaches_text cols' r
      end
  end.

(** A row that survives [dropna] and then reaches a text cell. *)
Definition meets_text (r : Row) : bool :=
  notna_row r && reaches_text price_cols r.

(** A volume column of text in rows that are dropped before the comparison
    reaches it: one has a null close, the other an open of zero. *)
Definition ex_harmless_text : DataFrame :=
  [ mkRow (Some "AAPL"%string) (DateStr "2024-01-02") (Num 2) NaN (Num 5)
          (Num 1) (NonNumeric "1e3 shares");
    mkRow (Some "AAPL"%string) (DateStr "2024-01-03") (Num 0) (Num 3) (Num 5)
          (Num 1) (NonNumeric "5k") ].


(** What [to_datetime] makes of a row whose date parses. *)
Definition convert (p : string -> option Z) (r : Row) : Row :=
  match to_datetime_cell p (DATE r) with
  | Some d => set_DATE d r
  | None => r
  end.


(* ================================================================== *)
(** * The collection stage (src/collect_data.py)

    A configuration is the dict that [yaml.safe_load] returns: keys in
    insertion order, each key once.  Assigning to a key replaces its value in
    place or appends the key. *)

Unset Elimination Schemes.
Inductive yaml : Type :=
| YNull
| YBool (b : bool)
| YInt (z : Z)
| YStr (s : string)
| YSeq (l : list yaml)
| YMap (m : list (string * yaml)).
Set Elimination Schemes.

Definition dict : Type := list (string * yaml).

Fixpoint dict_get (k : string) (d : dict) : option yaml :=
  match d with
  | [] => None
  | (k', v) :: d' => if String.eqb k k' then Some v else dict_get k d'
  end.

(** d[k] = v *)
Fixpoint dict_set (k : string) (v : yaml) (d : dict) : dict :=
  match d with
  | [] => [(k, v)]
  | (k', v') :: d' =>
      if String.eqb k k' then (k, v) :: d' else (k', v') :: dict_set k v d'
  end.

(** The namespace of [parse_args]: an option that was not given is None. *)
Record Namespace : Type := mkNamespace {
  arg_config : string;
  arg_tickers : option (list string);
  arg_start_date : option string;
  arg_end_date : option string;
  arg_output_dir : option string
}.

(** Truth value of an argument: None, the empty list and the empty string
    are false. *)
Definition truthy_list (a : option (list string)) : option yaml :=
  match a with
  | Some (t :: ts) => Some (YSeq (map YStr (t :: ts)))
  | _ => None
  end.

Definition truthy_str (a : option string) : option yaml :=
  match a with
  | Some EmptyString => None
  | Some s => Some (YStr s)
  | None => None
  end.

(** if value: final_config[key] = value *)
Definition set_if (k : string) (a : option yaml) (d : dict) : dict :=
  match a with
  | Some v => dict_set k v d
  | None => d
  end.

Definition merge_config_and_args (config : dict) (args : Namespace) : dict :=
  let final_config := config in
  let final_config := set_if "tickers" (truthy_list (arg_tickers args)) final_config in
  let final_config := set_if "start_date" (truthy_str (arg_start_date args)) final_config in
  let final_config := set_if "end_date" (truthy_str (arg_end_date args)) final_config in
  let final_config := set_if "output_dir" (truthy_str (arg_output_dir args)) final_config in
  final_config.

(** What the command line overrides for a key. *)
Definition override (k : string) (args : Namespace) : option yaml :=
  if String.eqb k "tickers" then truthy_list (arg_tickers args)
  else if String.eqb k "start_date" then truthy_str (arg_start_date args)
  else if String.eqb k "end_date" then truthy_str (arg_end_date args)
  else if String.eqb k "output_dir" then truthy_str (arg_output_dir args)
  else None.

(** [download_data]: the body of the try block, which asks the provider for
    the bars of one ticker and standardizes their columns, is the parameter
    [fetch]; it gives the frame of the ticker, or None when anything in it
    raises. *)
Inductive downloaded : Type :=
| Downloaded (final_data : DataFrame)
| ExitNoData. (* logger.error("No data downloaded."); sys.exit(1) *)

Definition download_loop (fetch : string -> option DataFrame)
  (tickers : list string) (all_data : list DataFrame) : list DataFrame :=
  fold_left (fun all_data ticker =>
               match fetch ticker with
               | Some df => all_data ++ [df]
               | None => all_data
               end)
            tickers all_data.

Definition download_data (fetch : string -> option DataFrame)
  (tickers : list string) : downloaded :=
  match download_loop fetch tickers [] with
  | [] => ExitNoData
  | all_data => Downloaded (concat all_data)
  end.

(** Example configuration, arguments and provider. *)
Definition ex_config : dict :=
  [ ("tickers"%string, YSeq [YStr "AAPL"; YStr "MSFT"]);
    ("start_date"%string, YStr "2024-01-01");
    ("end_date"%string, YStr "2024-06-30");
    ("alpaca"%string, YMap [("api_key"%string, YStr "key");
                            ("api_secret"%string, YStr "secret")]) ].

Definition ex_args : Namespace :=
  mkNamespace "config.yaml" (Some ["TSLA"%string]) (Some ""%string) None
              (Some "data"%string).

Definition ex_fetch (t : string) : option DataFrame :=
  if String.eqb t "AAPL" then Some [bar "AAPL" 20240102 10; bar "AAPL" 20240103 11]
  else if String.eqb t "MSFT" then Some [bar "MSFT" 20240102 20]
  else None.

(** Fourteen rows of one ticker, the twelfth with a null close and a volume
    of zero, and what the feature stage returns for them. *)
Definition ex_dirty : DataFrame :=
  bars_from "T" 0 spec_closes
  ++ [ mkRow (Some "T"%string) (Timestamp 11) (Num 1) NaN (Num 1) (Num 1) (Num 0) ]
  ++ bars_from "T" 12 [15; 16]%Q.

Definition ex_dirty_out : FeaturedFrame :=
  Eval vm_compute in
    match engineer_features iso_date approx_sqrt ex_dirty with
    | Ok out => out
    | Raise _ => []
    end.

(* ================================================================== *)
(** * Facts about the error monad *)

Lemma bind_Ok (A B : Type) (a : A) (k : A -> result B) : bind (Ok a) k = k a.
Proof. reflexivity. Qed.

Lemma bind_Ok_inv (A B : Type) (m : result A) (k : A -> result B) (b : B) :
  bind m k = Ok b -> exists a, m = Ok a /\ k a = Ok b.
Proof. destruct m as [a|e]; simpl; [eauto|discriminate]. Qed.

Lemma mapM_length (A B : Type) (f : A -> result B) (l : list A) (bs : list B) :
  mapM f l = Ok bs -> length bs = length l.
Proof.
  revert bs; induction l as [|a l IH]; simpl; intros bs H.
  - inversion H; reflexivity.
  - destruct (f a) as [b|e]; simpl in H; [|discriminate].
    destruct (mapM f l) as [bs'|e]; simpl in H; [|discriminate].
    inversion H; subst; simpl; f_equal; apply IH; reflexivity.
Qed.

Lemma mapM_total (A B : Type) (f : A -> result B) (g : A -> B) (l : list A) :
  Forall (fun a => f a = Ok (g a)) l -> mapM f l = Ok (map g l).
Proof.
  induction 1 as [|a l Ha _ IH]; simpl; [reflexivity|].
  rewrite Ha, IH; reflexivity.
Qed.

Lemma mapM_Ok_inv (A B : Type) (f : A -> result B) (l : list A) (bs : list B) :
  mapM f l = Ok bs -> Forall2 (fun a b => f a = Ok b) l bs.
Proof.
  revert bs; induction l as [|a l IH]; simpl; intros bs H.
  - inversion H; constructor.
  - destruct (f a) as [b|e] eqn:Ha; simpl in H; [|discriminate].
    destruct (mapM f l) as [bs'|e]; simpl in H; [|discriminate].
    inversion H; subst; constructor; auto.
Qed.

(* ================================================================== *)
(** * Facts about the stable sort *)

Section StableSortFacts.
Variable A : Type.
Variable leb : A -> A -> bool.

Local Abbreviation le := (fun x y => leb x y = true).

Lemma insert_perm (x : A) (l : list A) : Permutation (insert leb x l) (x :: l).
Proof.
  induction l as [|y l IH]; simpl; [reflexivity|].
  destruct (leb x y); [reflexivity|].
  rewrite IH; apply perm_swap.
Qed.

Lemma sort_perm (l : list A) : Permutation (sort leb l) l.
Proof.
  induction l as [|x l IH]; simpl; [reflexivity|].
  rewrite insert_perm; constructor; exact IH.
Qed.

Lemma sort_length (l : list A) : length (sort leb l) = length l.
Proof. apply Permutation_length, sort_perm. Qed.

Lemma sort_In (l : list A) (x : A) : In x (sort leb l) <-> In x l.
Proof.
  split; apply Permutation_in; [|symmetry]; apply sort_perm.
Qed.

Lemma sort_Forall (P : A -> Prop) (l : list A) :
  Forall P l -> Forall P (sort leb l).
Proof.
  rewrite !Forall_forall; intros H x Hx; apply H, sort_In, Hx.
Qed.

Lemma insert_head (x : A) (l : list A) :
  Forall (le x) l -> insert leb x l = x :: l.
Proof.
  destruct 1 as [|y l Hy _]; simpl; [reflexivity|].
  rewrite Hy; reflexivity.
Qed.

Lemma sort_sorted_id (l : list A) :
  StronglySorted le l -> sort leb l = l.
Proof.
  induction 1 as [|x l _ IH Hx]; simpl; [reflexivity|].
  rewrite IH; apply insert_head, Hx.
Qed.

Hypothesis leb_total : forall x y, leb x y = true \/ leb y x = true.
Hypothesis leb_trans : forall x y z,
  leb x y = true -> leb y z = true -> leb x z = true.

Lemma insert_sorted (x : A) (l : list A) :
  StronglySorted le l -> StronglySorted le (insert leb x l).
Proof.
  induction 1 as [|y l Hs IH Hy]; simpl.
  - repeat constructor.
  - destruct (leb x y) eqn:Hxy.
    + constructor; [constructor; assumption|].
      constructor; [exact Hxy|].
      eapply Forall_impl; [|exact Hy].
      intros z Hz; eapply leb_trans; eassumption.
    + constructor; [exact IH|].
      assert (Hyx : leb y x = true)
        by (destruct (leb_total x y) as [H|H]; [congruence|exact H]).
      rewrite Forall_forall; intros z Hz.
      apply (Permutation_in _ (insert_perm x l)) in Hz.
      destruct Hz as [<-|Hz]; [exact Hyx|].
      rewrite Forall_forall in Hy; apply Hy, Hz.
Qed.

Lemma sort_sorted (l : list A) : StronglySorted le (sort leb l).
Proof.
  induction l as [|x l IH]; simpl; [constructor|].
  apply insert_sorted, IH.
Qed.

(** Insertion never moves [x] past an element it ties with. *)
Lemma filter_tie_insert (z x : A) (l : list A) :
  filter (tie leb z) (insert leb x l)
  = if tie leb z x then x :: filter (tie leb z) l else filter (tie leb z) l.
Proof.
  induction l as [|y l IH]; simpl; [reflexivity|].
  destruct (leb x y) eqn:Hxy; simpl; [reflexivity|].
  rewrite IH.
  destruct (tie leb z y) eqn:Hzy, (tie leb z x) eqn:Hzx; try reflexivity.
  unfold tie in Hzy, Hzx.
  apply andb_true_iff in Hzy, Hzx.
  destruct Hzy as [Hzy _], Hzx as [_ Hxz].
  rewrite (leb_trans _ _ _ Hxz Hzy) in Hxy; discriminate.
Qed.

(** Stability: the elements tying with any [z] keep their input order. *)
Lemma sort_stable (z : A) (l : list A) :
  filter (tie leb z) (sort leb l) = filter (tie leb z) l.
Proof.
  induction l as [|x l IH]; simpl; [reflexivity|].
  rewrite filter_tie_insert, IH; reflexivity.
Qed.
End StableSortFacts.

(* ================================================================== *)
(** * The sort keys are totally ordered *)

Lemma string_leb_refl (s : string) : String.leb s s = true.
Proof. destruct (String.leb_total s s); assumption. Qed.

Lemma string_leb_trans (a b c : string) :
  String.leb a b = true -> String.leb b c = true -> String.leb a c = true.
Proof.
  unfold String.leb.
  destruct (String.compare a b) eqn:Hab; try discriminate; intros _;
    destruct (String.compare b c) eqn:Hbc; try discriminate; intros _.
  - apply String.compare_eq_iff in Hab, Hbc; subst.
    change (String.leb c c = true); apply string_leb_refl.
  - apply String.compare_eq_iff in Hab; subst; rewrite Hbc; reflexivity.
  - apply String.compare_eq_iff in Hbc; subst; rewrite Hab; reflexivity.
  - apply String_as_OT.cmp_lt in Hab, Hbc.
    pose proof (String_as_OT.lt_trans _ _ _ Hab Hbc) as Hac.
    apply String_as_OT.cmp_lt in Hac.
    unfold String_as_OT.cmp in Hac; rewrite Hac; reflexivity.
Qed.

Lemma string_tie (a b : string) :
  String.leb a b && String.leb b a = String.eqb a b.
Proof.
  destruct (String.eqb_spec a b) as [->|Hne].
  - rewrite string_leb_refl; reflexivity.
  - destruct (String.leb a b) eqn:Hab, (String.leb b a) eqn:Hba; try reflexivity.
    elim Hne; apply String.leb_antisym; assumption.
Qed.

Lemma Z_tie (a b : Z) : (a <=? b)%Z && (b <=? a)%Z = (a =? b)%Z.
Proof.
  destruct (Z.leb_spec a b), (Z.leb_spec b a), (Z.eqb_spec a b);
    simpl; try reflexivity; lia.
Qed.

Section OptionOrder.
Variable K : Type.
Variable leb eqb : K -> K -> bool.
Hypothesis leb_total : forall x y, leb x y = true \/ leb y x = true.
Hypothesis leb_trans : forall x y z,
  leb x y = true -> leb y z = true -> leb x z = true.
Hypothesis leb_tie : forall x y, leb x y && leb y x = eqb x y.

Lemma option_leb_total (x y : option K) :
  option_leb leb x y = true \/ option_leb leb y x = true.
Proof. destruct x, y; simpl; auto. Qed.

Lemma option_leb_trans (x y z : option K) :
  option_leb leb x y = true -> option_leb leb y z = true ->
  option_leb leb x z = true.
Proof.
  destruct x, y, z; simpl; try discriminate; auto.
  apply leb_trans.
Qed.

Lemma option_leb_tie (x y : option K) :
  option_leb leb x y && option_leb leb y x = option_eqb eqb x y.
Proof. destruct x, y; simpl; auto. Qed.
End OptionOrder.

Lemma ticker_leb_total (r1 r2 : Row) :
  ticker_leb r1 r2 = true \/ ticker_leb r2 r1 = true.
Proof. apply option_leb_total, String.leb_total. Qed.

Lemma ticker_leb_trans (r1 r2 r3 : Row) :
  ticker_leb r1 r2 = true -> ticker_leb r2 r3 = true -> ticker_leb r1 r3 = true.
Proof. apply option_leb_trans, string_leb_trans. Qed.

Lemma date_leb_total (r1 r2 : Row) :
  date_leb r1 r2 = true \/ date_leb r2 r1 = true.
Proof. apply option_leb_total; intros x y; rewrite !Z.leb_le; lia. Qed.

Lemma date_leb_trans (r1 r2 r3 : Row) :
  date_leb r1 r2 = true -> date_leb r2 r3 = true -> date_leb r1 r3 = true.
Proof. apply option_leb_trans; intros x y z; rewrite !Z.leb_le; lia. Qed.

Lemma ticker_date_leb_total (r1 r2 : Row) :
  ticker_date_leb r1 r2 = true \/ ticker_date_leb r2 r1 = true.
Proof.
  unfold ticker_date_leb.
  destruct (ticker_leb_total r1 r2) as [H|H]; rewrite H;
    destruct (ticker_leb r1 r2) eqn:H12, (ticker_leb r2 r1) eqn:H21;
    try discriminate; auto using date_leb_total.
Qed.

Lemma ticker_date_leb_trans (r1 r2 r3 : Row) :
  ticker_date_leb r1 r2 = true -> ticker_date_leb r2 r3 = true ->
  ticker_date_leb r1 r3 = true.
Proof.
  unfold ticker_date_leb.
  destruct (ticker_leb r1 r2) eqn:H12; [|discriminate].
  destruct (ticker_leb r2 r3) eqn:H23; [|intros _; discriminate].
  rewrite (ticker_leb_trans _ _ _ H12 H23).
  destruct (ticker_leb r3 r1) eqn:H31; [|reflexivity].
  rewrite (ticker_leb_trans _ _ _ H23 H31), (ticker_leb_trans _ _ _ H31 H12).
  apply date_leb_trans.
Qed.

(** On valid rows the boolean order is the order in words. *)
Lemma ticker_date_leb_key_le (r1 r2 : Row) :
  price_record r1 = true -> price_record r2 = true ->
  ticker_date_leb r1 r2 = true -> key_le r1 r2.
Proof.
  unfold price_record, ticker_date_leb, ticker_leb, date_leb, key_le.
  destruct r1 as [[t1|] [|s1|d1] o1 c1 h1 l1 v1]; simpl; try discriminate.
  destruct r2 as [[t2|] [|s2|d2] o2 c2 h2 l2 v2]; simpl; try discriminate.
  intros _ _ H; exists t1, d1, t2, d2; repeat split.
  destruct (String.leb t1 t2) eqn:H12; [|discriminate].
  destruct (String.leb t2 t1) eqn:H21.
  - right; split; [apply String.leb_antisym; assumption|].
    apply Z.leb_le, H.
  - left; unfold String.leb in H21; unfold String.ltb.
    rewrite String.compare_antisym.
    destruct (String.compare t2 t1); try discriminate; reflexivity.
Qed.

Lemma StronglySorted_impl (A : Type) (P : A -> Prop) (R R' : A -> A -> Prop)
  (l : list A) :
  (forall x y, P x -> P y -> R x y -> R' x y) ->
  Forall P l -> StronglySorted R l -> StronglySorted R' l.
Proof.
  intros HR HP Hs; induction Hs as [|x l _ IH Hx]; [constructor|].
  inversion HP as [|? ? Px Pl]; subst.
  constructor; [apply IH, Pl|].
  rewrite Forall_forall in *; intros y Hy; apply HR; auto.
Qed.

(** Rows tie in the (TICKER, DATE) order exactly when they share the key. *)
Lemma tie_same_key (r1 r2 : Row) :
  tie ticker_date_leb r1 r2 = same_key r1 r2.
Proof.
  unfold tie, ticker_date_leb, same_key.
  rewrite <- (option_leb_tie _ String.leb String.eqb string_tie).
  rewrite <- (option_leb_tie _ Z.leb Z.eqb Z_tie).
  fold (ticker_leb r1 r2) (ticker_leb r2 r1) (date_leb r1 r2) (date_leb r2 r1).
  destruct (ticker_leb r1 r2), (ticker_leb r2 r1); reflexivity.
Qed.

(* ================================================================== *)
(** * The cleaning stage, step by step *)

Lemma Qpositive_spec (q : Q) : Qpositive q = true <-> (0 < q)%Q.
Proof.
  unfold Qpositive; rewrite negb_true_iff.
  destruct (Qle_bool q 0) eqn:H.
  - apply Qle_bool_iff in H; split; [discriminate|].
    intros H'; exfalso; exact (Qlt_not_le _ _ H' H).
  - split; [intros _|reflexivity].
    apply Qnot_le_lt; intros H'; apply Qle_bool_iff in H'; congruence.
Qed.

Lemma positive_cell_spec (c : num_cell) :
  positive_cell c = true <-> exists q, c = Num q /\ (0 < q)%Q.
Proof.
  destruct c as [|q|s]; simpl.
  - split; [discriminate|intros (q & H & _); discriminate].
  - rewrite Qpositive_spec; split.
    + intros H; exists q; auto.
    + intros (q' & H & Hq); inversion H; subst; exact Hq.
  - split; [discriminate|intros (q & H & _); discriminate].
Qed.

Lemma price_record_spec (r : Row) : price_record r = true <-> PriceRecord r.
Proof.
  unfold price_record, PriceRecord, price_cols; simpl.
  rewrite !andb_true_iff, !positive_cell_spec.
  split.
  - intros [[Ht Hd] ((o & Ho & Hpo) & (c & Hc & Hpc) & (h & Hh & Hph)
                     & (l & Hl & Hpl) & (v & Hv & Hpv) & _)].
    destruct r as [[t|] [|s|d] ro rc rh rl rv]; simpl in *; try discriminate.
    subst; exists t, d, o, c, h, l, v; auto 10.
  - intros (t & d & o & c & h & l & v & -> & Ho & Hc & Hh & Hl & Hv); simpl.
    repeat split; eauto.
Qed.

Lemma to_datetime_cell_converted p c d :
  to_datetime_cell p c = Some d -> forall r, converted (set_DATE d r) = true.
Proof.
  destruct c as [|s|t]; simpl.
  - intros H; inversion H; reflexivity.
  - destruct (p s); intros H; inversion H; reflexivity.
  - intros H; inversion H; reflexivity.
Qed.

Lemma to_datetime_converted p e df df1 :
  to_datetime p e df = Ok df1 -> Forall (fun r => converted r = true) df1.
Proof.
  revert df1; induction df as [|r df IH]; simpl; intros df1 H.
  - inversion H; constructor.
  - destruct (to_datetime_cell p (DATE r)) as [d|] eqn:Hd; [|discriminate].
    destruct (to_datetime p e df) as [rest|]; simpl in H; [|discriminate].
    inversion H; subst; constructor; [|apply IH; reflexivity].
    eapply to_datetime_cell_converted; eassumption.
Qed.

Lemma to_datetime_Raise p e df :
  Exists (fun r => to_datetime_cell p (DATE r) = None) df ->
  to_datetime p e df = Raise e.
Proof.
  induction 1 as [r df Hr|r df _ IH]; simpl.
  - rewrite Hr; reflexivity.
  - destruct (to_datetime_cell p (DATE r)); [|reflexivity].
    rewrite IH; reflexivity.
Qed.

Lemma to_datetime_total p e df :
  Forall (fun r => to_datetime_cell p (DATE r) <> None) df ->
  exists df1, to_datetime p e df = Ok df1.
Proof.
  induction 1 as [|r df Hr _ [rest IH]]; simpl; [eauto|].
  destruct (to_datetime_cell p (DATE r)); [|congruence].
  rewrite IH; simpl; eauto.
Qed.

Lemma to_datetime_rows p e df df1 :
  to_datetime p e df = Ok df1 ->
  Forall2 (fun r r' => same_but_DATE r r' /\
                       to_datetime_cell p (DATE r) = Some (DATE r')) df df1.
Proof.
  revert df1; induction df as [|r df IH]; simpl; intros df1 H.
  - inversion H; constructor.
  - destruct (to_datetime_cell p (DATE r)) as [d|] eqn:Hd; [|discriminate].
    destruct (to_datetime p e df) as [rest|]; simpl in H; [|discriminate].
    inversion H; subst; constructor; [|apply IH; reflexivity].
    unfold same_but_DATE; simpl; auto 10.
Qed.

Lemma to_datetime_timestamps p e df :
  Forall (fun r => is_timestamp (DATE r) = true) df -> to_datetime p e df = Ok df.
Proof.
  induction 1 as [|r df Hr _ IH]; simpl; [reflexivity|].
  destruct r as [t [|s|d] o c h l v]; simpl in *; try discriminate.
  rewrite IH; reflexivity.
Qed.

(** The mask filter keeps the rows whose cell is a positive number. *)
Lemma filter_gt_zero_Ok col df out :
  filter_gt_zero col df = Ok out ->
  out = filter (fun r => positive_cell (col r)) df.
Proof.
  unfold filter_gt_zero.
  destruct (mapM (fun r => gt_zero (col r)) df) as [mask|] eqn:Hm; [|discriminate].
  simpl; intros H; inversion H; subst; clear H.
  apply mapM_Ok_inv in Hm.
  induction Hm as [|r b df mask Hr _ IH]; simpl; [reflexivity|].
  destruct (col r) as [|q|s]; simpl in *; inversion Hr; subst; simpl;
    try exact IH.
  destruct (Qpositive q); simpl; [f_equal|]; exact IH.
Qed.

Lemma filter_gt_zero_total col df :
  Forall (fun r => numeric_cell (col r) = true) df ->
  filter_gt_zero col df = Ok (filter (fun r => positive_cell (col r)) df).
Proof.
  intros H.
  assert (Hm : exists mask, mapM (fun r => gt_zero (col r)) df = Ok mask).
  { induction H as [|r df Hr _ [mask IH]]; simpl; [eauto|].
    rewrite IH; destruct (col r); simpl in *; try discriminate; eauto. }
  destruct Hm as [mask Hm].
  destruct (filter_gt_zero col df) as [out|e] eqn:Hf.
  - f_equal; apply filter_gt_zero_Ok, Hf.
  - unfold filter_gt_zero in Hf; rewrite Hm in Hf; discriminate.
Qed.

Lemma filter_filter (A : Type) (f g : A -> bool) (l : list A) :
  filter g (filter f l) = filter (fun x => f x && g x) l.
Proof.
  induction l as [|x l IH]; simpl; [reflexivity|].
  destruct (f x); simpl; [destruct (g x); simpl; congruence|exact IH].
Qed.

Lemma filter_positive_Ok cols df out :
  filter_positive cols df = Ok out ->
  out = filter (fun r => forallb (fun col => positive_cell (col r)) cols) df.
Proof.
  revert df out; induction cols as [|col cols IH]; simpl; intros df out H.
  - inversion H; subst; clear H.
    induction out as [|x l IHl]; simpl; congruence.
  - destruct (filter_gt_zero col df) as [df'|] eqn:Hf; [|discriminate].
    simpl in H; apply IH in H; subst.
    apply filter_gt_zero_Ok in Hf; subst.
    apply filter_filter.
Qed.

Lemma filter_positive_total cols df :
  Forall (fun r => forallb (fun col => numeric_cell (col r)) cols = true) df ->
  exists out, filter_positive cols df = Ok out.
Proof.
  revert df; induction cols as [|col cols IH]; simpl; intros df H; [eauto|].
  rewrite filter_gt_zero_total.
  - simpl; apply IH.
    rewrite Forall_forall in *; intros r Hr.
    apply filter_In in Hr; destruct Hr as [Hr _].
    apply H in Hr; apply andb_true_iff in Hr; tauto.
  - eapply Forall_impl; [|exact H].
    intros r Hr; apply andb_true_iff in Hr; tauto.
Qed.

Lemma filter_id (A : Type) (f : A -> bool) (l : list A) :
  Forall (fun x => f x = true) l -> filter f l = l.
Proof.
  induction 1 as [|x l Hx _ IH]; simpl; [reflexivity|].
  rewrite Hx, IH; reflexivity.
Qed.

Lemma filter_ext_Forall (A : Type) (f g : A -> bool) (l : list A) :
  Forall (fun x => f x = g x) l -> filter f l = filter g l.
Proof.
  induction 1 as [|x l Hx _ IH]; simpl; [reflexivity|].
  rewrite Hx, IH; reflexivity.
Qed.

(** On a converted frame, [dropna] followed by the five positivity filters
    keeps exactly the rows that satisfy the PriceRecord invariant. *)
Lemma price_record_split (r : Row) :
  converted r = true ->
  notna_row r && forallb (fun col => positive_cell (col r)) price_cols
  = price_record r.
Proof.
  unfold converted, notna_row, price_record, price_cols.
  destruct r as [[t|] [|s|d] [|o|o] [|c|c] [|h|h] [|l|l] [|v|v]]; simpl;
    try discriminate; intros _;
    rewrite ?andb_false_r, ?andb_true_r; reflexivity.
Qed.

(** The cleaning stage succeeds exactly on the sorted valid rows of the
    converted frame. *)
Lemma clean_data_Ok p df out :
  clean_data p df = Ok out ->
  exists parsed,
    to_datetime p ExitInvalidDate df = Ok parsed /\
    out = sort_values_TICKER_DATE (filter price_record parsed).
Proof.
  unfold clean_data; intros H.
  apply bind_Ok_inv in H; destruct H as (parsed & Hp & H).
  apply bind_Ok_inv in H; destruct H as (df3 & Hf & H).
  inversion H; subst; clear H.
  exists parsed; split; [exact Hp|].
  apply filter_positive_Ok in Hf; subst; unfold dropna.
  rewrite filter_filter; f_equal.
  apply filter_ext_Forall.
  eapply Forall_impl; [|eapply to_datetime_converted; exact Hp].
  intros r; apply price_record_split.
Qed.

Lemma price_record_parts (r : Row) :
  price_record r = true ->
  is_timestamp (DATE r) = true /\ notna_row r = true /\
  forallb (fun col => positive_cell (col r)) price_cols = true /\
  forallb (fun col => numeric_cell (col r)) price_cols = true.
Proof.
  unfold price_record, notna_row, price_cols.
  destruct r as [[t|] [|s|d] [|o|o] [|c|c] [|h|h] [|l|l] [|v|v]]; simpl;
    rewrite ?andb_false_r; try discriminate; intros H; rewrite H; auto.
Qed.

Lemma clean_data_cleaned p df out :
  clean_data p df = Ok out -> Forall (fun r => price_record r = true) out.
Proof.
  intros H; apply clean_data_Ok in H; destruct H as (parsed & _ & ->).
  apply sort_Forall, Forall_forall; intros r Hr.
  apply filter_In in Hr; tauto.
Qed.

(* ================================================================== *)
(** * Claims about the cleaning stage *)

(** C5. Whenever the cleaning stage returns, its output is sorted by
    (TICKER, DATE) ascending, every earlier row being below every later one,
    and the surviving rows that share a (TICKER, DATE) key stand in the order
    they had in the input. *)
Theorem clean_data_sorted_stable (p : string -> option Z) (df out : DataFrame) :
  clean_data p df = Ok out ->
  StronglySorted key_le out /\
  exists parsed,
    to_datetime p ExitInvalidDate df = Ok parsed /\
    forall r, filter (same_key r) out
              = filter (same_key r) (filter price_record parsed).
Proof.
  intros H; pose proof (clean_data_cleaned _ _ _ H) as Hc.
  apply clean_data_Ok in H; destruct H as (parsed & Hp & ->).
  split.
  - apply (StronglySorted_impl _ _ _ _ _ ticker_date_leb_key_le Hc).
    apply sort_sorted;
      [exact ticker_date_leb_total | exact ticker_date_leb_trans].
  - exists parsed; split; [exact Hp|].
    intros r; unfold sort_values_TICKER_DATE.
    rewrite <- !(filter_ext (tie ticker_date_leb r) (same_key r) (tie_same_key r)).
    apply sort_stable, ticker_date_leb_trans.
Qed.

Lemma clean_data_sorted_stable_witness :
  clean_data iso_date ex_raw = Ok ex_clean /\
  StronglySorted key_le ex_clean /\
  exists parsed,
    to_datetime iso_date ExitInvalidDate ex_raw = Ok parsed /\
    forall r, filter (same_key r) ex_clean
              = filter (same_key r) (filter price_record parsed).
Proof.
  split; [vm_compute; reflexivity|].
  apply (@clean_data_sorted_stable iso_date ex_raw ex_clean).
  vm_compute; reflexivity.
Defined.

(** C6. Whenever the cleaning stage returns, every output row has all its
    fields present and open, close, high, low and volume strictly positive;
    the output holds exactly the converted input rows of that kind, and no
    output row is the conversion of an input row with a missing field or a
    price that is not a positive number. *)
Theorem clean_data_valid (p : string -> option Z) (df out : DataFrame) :
  clean_data p df = Ok out ->
  Forall PriceRecord out /\
  (exists parsed,
     to_datetime p ExitInvalidDate df = Ok parsed /\
     Permutation out (filter price_record parsed)) /\
  (forall r r', In r df -> violates r = true -> conversion_of p r r' ->
                ~ In r' out).
Proof.
  intros H.
  pose proof (clean_data_cleaned _ _ _ H) as Hc.
  apply clean_data_Ok in H; destruct H as (parsed & Hp & ->).
  split; [|split].
  - eapply Forall_impl; [|exact Hc]; intros r; apply price_record_spec.
  - exists parsed; split; [exact Hp|apply sort_perm].
  - intros r r' _ Hv [Hsame Hdate] Hin.
    rewrite Forall_forall in Hc; apply Hc in Hin.
    unfold violates in Hv; apply negb_true_iff in Hv.
    destruct Hsame as (Ht & Ho & Hcl & Hh & Hl & Hvol).
    unfold price_record, price_cols in Hin; simpl in Hin, Hv.
    rewrite Ht, Ho, Hcl, Hh, Hl, Hvol in Hin.
    destruct (notna_ticker (TICKER r)); simpl in *; [|discriminate].
    destruct (is_timestamp (DATE r')) eqn:Hts; simpl in *; [|discriminate].
    rewrite Hin, andb_true_r in Hv.
    destruct (DATE r) as [|s|t]; simpl in *; try discriminate.
    inversion Hdate as [Hd]; rewrite <- Hd in Hts; discriminate.
Qed.

Lemma clean_data_valid_witness :
  clean_data iso_date ex_raw = Ok ex_clean /\
  Forall PriceRecord ex_clean /\
  (exists parsed,
     to_datetime iso_date ExitInvalidDate ex_raw = Ok parsed /\
     Permutation ex_clean (filter price_record parsed)) /\
  (forall r r', In r ex_raw -> violates r = true ->
                conversion_of iso_date r r' -> ~ In r' ex_clean).
Proof.
  split; [vm_compute; reflexivity|].
  apply (@clean_data_valid iso_date ex_raw ex_clean).
  vm_compute; reflexivity.
Defined.

(** C9. The cleaning stage is idempotent: run on its own output it returns
    that output again, same rows in the same order. *)
Theorem clean_data_idempotent (p : string -> option Z) (df out : DataFrame) :
  clean_data p df = Ok out -> clean_data p out = Ok out.
Proof.
  intros H.
  pose proof (clean_data_cleaned _ _ _ H) as Hc.
  assert (Hs : StronglySorted (fun r1 r2 => ticker_date_leb r1 r2 = true) out).
  { apply clean_data_Ok in H; destruct H as (parsed & _ & ->).
    apply sort_sorted;
      [exact ticker_date_leb_total | exact ticker_date_leb_trans]. }
  clear H; unfold clean_data.
  assert (Hparts : Forall (fun r => is_timestamp (DATE r) = true /\
                            notna_row r = true /\
                            forallb (fun col => positive_cell (col r)) price_cols = true /\
                            forallb (fun col => numeric_cell (col r)) price_cols = true) out).
  { eapply Forall_impl; [|exact Hc]; apply price_record_parts. }
  rewrite to_datetime_timestamps
    by (eapply Forall_impl; [|exact Hparts]; simpl; tauto).
  rewrite bind_Ok; cbv zeta.
  replace (dropna out) with out
    by (symmetry; apply filter_id; eapply Forall_impl; [|exact Hparts];
        simpl; tauto).
  destruct (filter_positive_total price_cols out) as [out' Hout'];
    [eapply Forall_impl; [|exact Hparts]; simpl; tauto|].
  rewrite Hout', bind_Ok.
  apply filter_positive_Ok in Hout'.
  rewrite filter_id in Hout'
    by (eapply Forall_impl; [|exact Hparts]; simpl; tauto).
  subst out'; f_equal; apply sort_sorted_id, Hs.
Qed.

Lemma clean_data_idempotent_witness :
  clean_data iso_date ex_raw = Ok ex_clean /\
  clean_data iso_date ex_clean = Ok ex_clean.
Proof.
  split; [vm_compute; reflexivity|].
  apply (@clean_data_idempotent iso_date ex_raw ex_clean).
  vm_compute; reflexivity.
Defined.

Lemma to_datetime_numeric p e df parsed :
  to_datetime p e df = Ok parsed ->
  Forall (fun r => numeric_row r = true) df ->
  Forall (fun r => numeric_row r = true) parsed.
Proof.
  intros H; apply to_datetime_rows in H.
  induction H as [|r r' df parsed [Hs _] _ IH]; intros Hn; [constructor|].
  inversion Hn; subst; constructor; [|auto].
  destruct Hs as (_ & Ho & Hc & Hh & Hl & Hv).
  unfold numeric_row, price_cols in *; simpl in *.
  rewrite Ho, Hc, Hh, Hl, Hv; assumption.
Qed.

(** C7, counterexample: every date of this frame parses, and the
    comparison of the str cell with 0 raises an uncaught TypeError. *)
Lemma clean_data_non_numeric_raises :
  Forall (fun r => to_datetime_cell iso_date (DATE r) <> None) ex_non_numeric /\
  clean_data iso_date ex_non_numeric = Raise TypeError /\
  ~ (exists out, clean_data iso_date ex_non_numeric = Ok out).
Proof.
  split; [|split].
  - repeat constructor; vm_compute; discriminate.
  - vm_compute; reflexivity.
  - intros [out H]; vm_compute in H; discriminate.
Qed.

(** C7, amended. A date that cannot be parsed, in any row and whatever the
    other cells of that row hold, ends the stage through the logged exit
    before any row is returned; when every date parses and every price and
    volume cell is a number or missing, the stage returns a frame. *)
Theorem clean_data_failure_modes (p : string -> option Z) (df : DataFrame) :
  (Exists (fun r => to_datetime_cell p (DATE r) = None) df ->
   clean_data p df = Raise ExitInvalidDate) /\
  (Forall (fun r => to_datetime_cell p (DATE r) <> None) df ->
   Forall (fun r => numeric_row r = true) df ->
   exists out, clean_data p df = Ok out).
Proof.
  split.
  - intros H; unfold clean_data.
    rewrite (to_datetime_Raise p ExitInvalidDate df H); reflexivity.
  - intros Hd Hn; unfold clean_data.
    destruct (to_datetime_total p ExitInvalidDate df Hd) as [parsed Hp].
    rewrite Hp, bind_Ok; cbv zeta.
    destruct (filter_positive_total price_cols (dropna parsed)) as [df3 H3].
    + pose proof (to_datetime_numeric _ _ _ _ Hp Hn) as Hn'.
      rewrite Forall_forall in *; intros r Hr.
      apply filter_In in Hr; apply Hn', Hr.
    + rewrite H3, bind_Ok; eauto.
Qed.

Lemma clean_data_failure_modes_witness :
  (Exists (fun r => to_datetime_cell iso_date (DATE r) = None) ex_bad_date /\
   clean_data iso_date ex_bad_date = Raise ExitInvalidDate) /\
  (Forall (fun r => to_datetime_cell iso_date (DATE r) <> None) ex_raw /\
   Forall (fun r => numeric_row r = true) ex_raw /\
   exists out, clean_data iso_date ex_raw = Ok out).
Proof.
  assert (Hbad : Exists (fun r => to_datetime_cell iso_date (DATE r) = None)
                        ex_bad_date)
    by (apply Exists_cons_tl, Exists_cons_hd; vm_compute; reflexivity).
  assert (Hd : Forall (fun r => to_datetime_cell iso_date (DATE r) <> None) ex_raw)
    by (repeat constructor; vm_compute; discriminate).
  assert (Hn : Forall (fun r => numeric_row r = true) ex_raw)
    by (repeat constructor).
  split; [split; [exact Hbad|]|split; [exact Hd|split; [exact Hn|]]].
  - exact (proj1 (clean_data_failure_modes iso_date ex_bad_date) Hbad).
  - exact (proj2 (clean_data_failure_modes iso_date ex_raw) Hd Hn).
Defined.

(** C4. On the empty frame the cleaning stage returns the empty frame, and
    the feature stage, left with no group to concatenate, raises. *)
Theorem empty_input (p : string -> option Z) (sqrt : Q -> Q) :
  clean_data p [] = Ok [] /\
  engineer_features p sqrt [] = Raise NoObjectsToConcatenate.
Proof. split; reflexivity. Qed.

(* ================================================================== *)
(** * Series: returns and rolling windows *)

Lemma skipn_cons_nth (A : Type) (d : A) (l : list A) (k : nat) :
  k < length l -> skipn k l = nth k l d :: skipn (S k) l.
Proof.
  revert k; induction l as [|x l IH]; simpl; intros k Hk; [lia|].
  destruct k as [|k]; [reflexivity|].
  simpl; apply IH; lia.
Qed.

Lemma firstn_skipn_slice (xs : list Q) (n k : nat) :
  k + n <= length xs -> firstn n (skipn k xs) = slice xs k n.
Proof.
  unfold slice; revert k; induction n as [|n IH]; intros k Hk; [reflexivity|].
  rewrite (skipn_cons_nth Q 0%Q xs k) by lia.
  cbn [firstn seq map]; f_equal; apply IH; lia.
Qed.

Lemma slice_length (xs : list Q) (k n : nat) : length (slice xs k n) = n.
Proof. unfold slice; rewrite length_map, length_seq; reflexivity. Qed.

Lemma observations_Some (l : list Q) : observations (map Some l) = l.
Proof. induction l as [|x l IH]; simpl; congruence. Qed.

Lemma rolling_length (w : nat) (agg : list Q -> Q) (xs : Series) :
  length (rolling w agg xs) = length xs.
Proof. unfold rolling; rewrite length_map, length_seq; reflexivity. Qed.

Lemma rolling_nth (w : nat) (agg : list Q -> Q) (xs : Series) (i : nat) :
  i < length xs ->
  nth i (rolling w agg xs) None
  = if w <=? length (observations (window w i xs))
    then Some (agg (observations (window w i xs))) else None.
Proof.
  intros Hi; unfold rolling.
  set (f := fun i => if w <=? length (observations (window w i xs))
                     then Some (agg (observations (window w i xs))) else None).
  rewrite (nth_indep _ None (f 0)) by (rewrite length_map, length_seq; exact Hi).
  rewrite map_nth, seq_nth by exact Hi; reflexivity.
Qed.

(** A window over a series without NaN. *)
Lemma window_Some (w i : nat) (cs : list Q) :
  i < length cs ->
  observations (window w i (map Some cs))
  = if w <=? S i then slice cs (S i - w) w else firstn (S i) cs.
Proof.
  intros Hi; unfold window.
  rewrite skipn_map, firstn_map, observations_Some.
  destruct (Nat.leb_spec w (S i)) as [Hw|Hw].
  - replace (S i - (S i - w)) with w by lia.
    apply firstn_skipn_slice; lia.
  - replace (S i - w) with 0 by lia; reflexivity.
Qed.

Lemma rolling_Some_nth (w : nat) (agg : list Q -> Q) (cs : list Q) (i : nat) :
  1 <= w -> i < length cs ->
  nth i (rolling w agg (map Some cs)) None
  = if w <=? S i then Some (agg (slice cs (S i - w) w)) else None.
Proof.
  intros Hw Hi.
  rewrite rolling_nth by (rewrite length_map; exact Hi).
  rewrite window_Some by exact Hi.
  destruct (Nat.leb_spec w (S i)) as [Hwi|Hwi].
  - rewrite slice_length, Nat.leb_refl; reflexivity.
  - rewrite length_firstn.
    destruct (Nat.leb_spec w (Nat.min (S i) (length cs))); [lia|reflexivity].
Qed.

(** The return series of a series without NaN: NaN, then the ratios. *)
Lemma pct_change_Some (c : Q) (cs : list Q) :
  pct_change (map Some (c :: cs)) = None :: map Some (ratios c cs).
Proof.
  unfold pct_change, shift1; simpl; f_equal.
  revert c; induction cs as [|c' cs IH]; intros c; simpl; [reflexivity|].
  f_equal; apply IH.
Qed.

Lemma ratios_length (c : Q) (cs : list Q) : length (ratios c cs) = length cs.
Proof. revert c; induction cs as [|c' cs IH]; intros c; simpl; auto. Qed.

Lemma ratios_nth (c : Q) (cs : list Q) (j : nat) :
  j < length cs -> nth j (ratios c cs) 0%Q = return_at (c :: cs) (S j).
Proof.
  revert c j; induction cs as [|c' cs IH]; intros c j Hj; simpl in Hj; [lia|].
  destruct j as [|j]; [reflexivity|].
  simpl ratios; simpl nth at 1; rewrite IH by lia.
  unfold return_at; simpl; rewrite Nat.sub_0_r; reflexivity.
Qed.

Lemma pct_change_nth (cs : list Q) (i : nat) :
  i < length cs ->
  nth i (pct_change (map Some cs)) None
  = if 1 <=? i then Some (return_at cs i) else None.
Proof.
  destruct cs as [|c cs]; simpl length; intros Hi; [lia|].
  rewrite pct_change_Some.
  destruct i as [|i]; [reflexivity|].
  simpl nth at 1; simpl Nat.leb.
  rewrite (nth_indep _ None (Some 0%Q)) by (rewrite length_map, ratios_length; lia).
  rewrite map_nth, ratios_nth by lia; reflexivity.
Qed.

(** A window over the return series: its first cell is NaN. *)
Lemma window_returns (w i : nat) (rs : list Q) :
  1 <= w -> i <= length rs ->
  observations (window w i (None :: map Some rs))
  = if w <=? i then slice rs (i - w) w else firstn i rs.
Proof.
  intros Hw Hi; unfold window.
  destruct (Nat.leb_spec w i) as [Hwi|Hwi].
  - replace (S i - w) with (S (i - w)) by lia.
    replace (S i - S (i - w)) with w by lia.
    simpl skipn; rewrite skipn_map, firstn_map, observations_Some.
    apply firstn_skipn_slice; lia.
  - replace (S i - w) with 0 by lia.
    simpl; rewrite firstn_map, observations_Some; reflexivity.
Qed.

Lemma slice_ratios (c : Q) (cs : list Q) (k n : nat) :
  k + n <= length cs ->
  slice (ratios c cs) k n = map (return_at (c :: cs)) (seq (S k) n).
Proof.
  intros H; unfold slice.
  rewrite <- seq_shift, map_map.
  apply map_ext_in; intros j Hj; apply in_seq in Hj.
  apply ratios_nth; lia.
Qed.

Lemma rolling_returns_nth (agg : list Q -> Q) (cs : list Q) (i : nat) :
  i < length cs ->
  nth i (rolling 10 agg (pct_change (map Some cs))) None
  = if 10 <=? i then Some (agg (map (return_at cs) (seq (i - 9) 10))) else None.
Proof.
  destruct cs as [|c cs]; simpl length; intros Hi; [lia|].
  rewrite pct_change_Some.
  rewrite rolling_nth by (simpl; rewrite length_map, ratios_length; lia).
  rewrite window_returns by (rewrite ?ratios_length; lia).
  destruct (Nat.leb_spec 10 i) as [H10|H10].
  - rewrite slice_length; simpl Nat.leb; cbv iota.
    rewrite slice_ratios by lia.
    replace (S (i - 10)) with (i - 9) by lia; reflexivity.
  - rewrite length_firstn.
    destruct (Nat.leb_spec 10 (Nat.min i (length (ratios c cs)))); [lia|reflexivity].
Qed.

(** The aggregates of the model are those of the specification. *)
Lemma mean_arithmetic_mean (xs : list Q) : mean xs = arithmetic_mean xs.
Proof. reflexivity. Qed.

Lemma var_sample_variance (xs : list Q) : var xs = sample_variance xs.
Proof.
  unfold var, sample_variance, ssqdm, Qsum, Qlen, ddof; f_equal.
  rewrite mean_arithmetic_mean.
  generalize (arithmetic_mean xs); intros m.
  induction xs as [|x xs IH]; simpl; [reflexivity|].
  rewrite IH; reflexivity.
Qed.

(* ================================================================== *)
(** * One group of a cleaned frame *)

Lemma assign_from_base (k : nat) (g : DataFrame) (ret ma5 ma10 vol : Series) :
  map base (assign_from k g ret ma5 ma10 vol) = g.
Proof.
  revert k; induction g as [|r g IH]; intros k; simpl; [reflexivity|].
  f_equal; apply IH.
Qed.

Lemma assign_from_nth (k : nat) (g : DataFrame) (ret ma5 ma10 vol : Series)
  (i : nat) (row : FeaturedRow) :
  nth_error (assign_from k g ret ma5 ma10 vol) i = Some row ->
  nth_error g i = Some (base row) /\
  Return_1d row = nth (k + i) ret None /\ MA_5d row = nth (k + i) ma5 None /\
  MA_10d row = nth (k + i) ma10 None /\ Volatility_10d row = nth (k + i) vol None.
Proof.
  revert k i; induction g as [|r g IH]; intros k i; simpl.
  - destruct i; discriminate.
  - destruct i as [|i]; simpl.
    + intros H; inversion H; subst; simpl; rewrite Nat.add_0_r; auto.
    + intros H; apply IH in H.
      rewrite Nat.add_succ_r; exact H.
Qed.

Lemma price_record_close (r : Row) :
  price_record r = true -> as_float (Price_Close r) = Ok (Some (close_of r)).
Proof.
  intros H; apply price_record_spec in H.
  destruct H as (t & d & o & c & h & l & v & -> & _); reflexivity.
Qed.

Lemma feature_frame_cleaned (sqrt : Q -> Q) (g : DataFrame) :
  Forall (fun r => price_record r = true) g ->
  feature_frame sqrt g = Ok (frame_of sqrt g).
Proof.
  intros Hg; unfold feature_frame, frame_of; cbv zeta.
  rewrite (mapM_total _ _ _ (fun r => Some (close_of r))).
  - rewrite bind_Ok, map_map; reflexivity.
  - apply sort_Forall; eapply Forall_impl; [|exact Hg].
    exact price_record_close.
Qed.

Lemma frame_of_base (sqrt : Q -> Q) (g : DataFrame) :
  map base (frame_of sqrt g) = sort_values_DATE g.
Proof. apply assign_from_base. Qed.

Lemma frame_of_length (sqrt : Q -> Q) (g : DataFrame) :
  length (frame_of sqrt g) = length g.
Proof.
  rewrite <- (length_map base), frame_of_base.
  apply sort_length.
Qed.

(** Row [i] of the frame of a group carries the specified columns. *)
Lemma frame_of_nth (sqrt : Q -> Q) (g : DataFrame) (i : nat) (row : FeaturedRow) :
  nth_error (frame_of sqrt g) i = Some row ->
  let cs := map close_of (sort_values_DATE g) in
  nth_error (sort_values_DATE g) i = Some (base row) /\
  Return_1d row = return_spec cs i /\
  MA_5d row = ma_spec 5 cs i /\
  MA_10d row = ma_spec 10 cs i /\
  Volatility_10d row = vol_spec sqrt cs i.
Proof.
  intros H cs.
  apply assign_from_nth in H; simpl in H.
  destruct H as (Hb & Hr & H5 & H10 & Hv).
  assert (Hi : i < length cs).
  { unfold cs; rewrite length_map; apply nth_error_Some; congruence. }
  fold cs in Hr, H5, H10, Hv.
  split; [exact Hb|].
  rewrite Hr, H5, H10, Hv.
  rewrite pct_change_nth, !rolling_Some_nth, rolling_returns_nth by (auto; lia).
  unfold return_spec, ma_spec, vol_spec, std.
  rewrite var_sample_variance; auto.
Qed.

Lemma filter_from_index (A : Type) (f : A -> bool) (l : list A) (k : nat) :
  (forall i x, nth_error l i = Some x -> f x = (k <=? i)) ->
  filter f l = skipn k l.
Proof.
  revert k; induction l as [|x l IH]; intros k H; [destruct k; reflexivity|].
  pose proof (H 0 x eq_refl) as Hx; simpl.
  destruct k as [|k]; simpl in Hx; rewrite Hx.
  - f_equal; rewrite (IH 0); [reflexivity|].
    intros i y Hy; rewrite (H (S i) y Hy); reflexivity.
  - simpl; apply IH.
    intros i y Hy; rewrite (H (S i) y Hy); reflexivity.
Qed.

(** In the frame of a cleaned group the rows with a NaN are the first ten. *)
Lemma dropna_frame_of (sqrt : Q -> Q) (g : DataFrame) :
  Forall (fun r => price_record r = true) g ->
  dropna_featured (frame_of sqrt g) = skipn 10 (frame_of sqrt g).
Proof.
  intros Hg; apply filter_from_index; intros i row H.
  apply frame_of_nth in H; cbv zeta in H.
  destruct H as (Hb & Hr & H5 & H10 & Hv).
  assert (Hbase : notna_row (base row) = true).
  { apply nth_error_In in Hb.
    apply sort_In in Hb.
    rewrite Forall_forall in Hg; apply Hg in Hb.
    apply price_record_parts in Hb; tauto. }
  unfold notna_featured; rewrite Hbase, Hr, H5, H10, Hv.
  unfold return_spec, ma_spec, vol_spec.
  destruct (Nat.leb_spec 10 i) as [Hi|Hi].
  - destruct (Nat.leb_spec 1 i); [|lia].
    destruct (Nat.leb_spec 5 (S i)); [|lia].
    destruct (Nat.leb_spec 10 (S i)); [|lia].
    reflexivity.
  - simpl; rewrite !andb_false_r; reflexivity.
Qed.

(* ================================================================== *)
(** * Grouping *)

Lemma has_ticker_spec (t : string) (r : Row) :
  has_ticker t r = true <-> TICKER r = Some t.
Proof.
  unfold has_ticker; destruct (TICKER r) as [t'|].
  - rewrite String.eqb_eq; split; [intros ->; reflexivity|congruence].
  - split; discriminate.
Qed.

Lemma ticker_values_In (t : string) (df : DataFrame) :
  In t (ticker_values df) <-> exists r, In r df /\ TICKER r = Some t.
Proof.
  induction df as [|r df IH]; simpl.
  - split; [tauto|intros (r & [] & _)].
  - destruct (TICKER r) as [t'|] eqn:Ht; simpl; rewrite IH; split.
    + intros [<-|(r' & Hr' & Ht')]; eauto.
    + intros (r' & [<-|Hr'] & Ht'); [left; congruence|eauto].
    + intros (r' & Hr' & Ht'); eauto.
    + intros (r' & [<-|Hr'] & Ht'); [congruence|eauto].
Qed.

Lemma group_keys_In (t : string) (df : DataFrame) :
  In t (group_keys df) <-> exists r, In r df /\ TICKER r = Some t.
Proof.
  unfold group_keys; rewrite sort_In, nodup_In; apply ticker_values_In.
Qed.

Lemma group_keys_NoDup (df : DataFrame) : NoDup (group_keys df).
Proof.
  unfold group_keys.
  eapply Permutation_NoDup; [symmetry; apply sort_perm|apply NoDup_nodup].
Qed.

Lemma get_group_In (t : string) (df : DataFrame) (r : Row) :
  In r (get_group t df) <-> In r df /\ TICKER r = Some t.
Proof. unfold get_group; rewrite filter_In, has_ticker_spec; tauto. Qed.

Lemma get_group_absent (t : string) (df : DataFrame) :
  ~ In t (group_keys df) -> get_group t df = [].
Proof.
  intros H; destruct (get_group t df) as [|r g] eqn:Hg; [reflexivity|].
  elim H; apply group_keys_In; exists r.
  apply get_group_In; rewrite Hg; left; reflexivity.
Qed.

Lemma cleaned_Forall (df : DataFrame) :
  cleaned df = true <-> Forall (fun r => price_record r = true) df.
Proof. unfold cleaned; rewrite forallb_forall, Forall_forall; tauto. Qed.

Lemma get_group_cleaned (t : string) (df : DataFrame) :
  cleaned df = true -> cleaned (get_group t df) = true.
Proof.
  rewrite !cleaned_Forall, !Forall_forall; intros H r Hr.
  apply get_group_In in Hr; apply H, Hr.
Qed.

Lemma cleaned_keys_nonempty (df : DataFrame) :
  cleaned df = true -> df <> [] -> group_keys df <> [].
Proof.
  intros Hc Hne; destruct df as [|r df]; [congruence|].
  apply cleaned_Forall in Hc; inversion Hc as [|? ? Hr _]; subst.
  apply price_record_spec in Hr.
  destruct Hr as (t & d & o & c & h & l & v & -> & _).
  intros Hk.
  assert (Hin : In t (group_keys (mkRow (Some t) (Timestamp d) (Num o) (Num c)
                                        (Num h) (Num l) (Num v) :: df))).
  { apply group_keys_In; eexists; split; [left; reflexivity|reflexivity]. }
  rewrite Hk in Hin; exact Hin.
Qed.

Lemma filter_none (A : Type) (f : A -> bool) (l : list A) :
  (forall x, In x l -> f x = false) -> filter f l = [].
Proof.
  induction l as [|x l IH]; intros H; simpl; [reflexivity|].
  rewrite (H x (or_introl eq_refl)); apply IH.
  intros y Hy; apply H; right; exact Hy.
Qed.

(** Selecting the rows of ticker [t] from frames laid out key by key. *)
Lemma filter_concat_keys (F : string -> FeaturedFrame) (t : string)
  (keys : list string) :
  NoDup keys ->
  (forall k x, In k keys -> In x (F k) -> TICKER (base x) = Some k) ->
  filter (fun x => has_ticker t (base x)) (concat (map F keys))
  = if in_dec string_dec t keys then F t else [].
Proof.
  intros Hnd HF; induction Hnd as [|k keys Hk Hnd IH]; [reflexivity|].
  simpl concat; rewrite filter_app, IH
    by (intros k' x Hk' Hx; apply HF; [right; exact Hk'|exact Hx]).
  destruct (string_dec k t) as [->|Hne].
  - rewrite filter_id.
    + destruct (in_dec string_dec t (t :: keys)) as [_|Hn];
        [|elim Hn; left; reflexivity].
      destruct (in_dec string_dec t keys); [contradiction|apply app_nil_r].
    + apply Forall_forall; intros x Hx.
      apply has_ticker_spec, HF; [left; reflexivity|exact Hx].
  - replace (filter (fun x => has_ticker t (base x)) (F k)) with (@nil FeaturedRow).
    + simpl app.
      destruct (in_dec string_dec t keys) as [Hi|Hi],
               (in_dec string_dec t (k :: keys)) as [Hi'|Hi'];
        try reflexivity.
      * elim Hi'; right; exact Hi.
      * destruct Hi' as [->|Hi']; [congruence|contradiction].
    + symmetry; apply filter_none; intros x Hx.
      destruct (has_ticker t (base x)) eqn:Ht; [|reflexivity].
      apply has_ticker_spec in Ht.
      rewrite (HF k x (or_introl eq_refl) Hx) in Ht; congruence.
Qed.

(* ================================================================== *)
(** * The feature stage on a cleaned frame *)

Lemma engineer_features_cleaned (p : string -> option Z) (sqrt : Q -> Q)
  (df : DataFrame) :
  cleaned df = true -> df <> [] ->
  engineer_features p sqrt df = Ok (featured_rows sqrt df).
Proof.
  intros Hc Hne; unfold engineer_features.
  rewrite to_datetime_timestamps.
  2:{ eapply Forall_impl; [|apply cleaned_Forall, Hc].
      intros r Hr; apply price_record_parts in Hr; tauto. }
  rewrite bind_Ok; unfold groupby_TICKER.
  rewrite (mapM_total _ _ _ (fun tg => frame_of sqrt (snd tg))).
  2:{ apply Forall_forall; intros tg Htg.
      apply in_map_iff in Htg; destruct Htg as (t & <- & _); simpl.
      apply feature_frame_cleaned, cleaned_Forall, get_group_cleaned, Hc. }
  rewrite bind_Ok, map_map; simpl snd.
  pose proof (cleaned_keys_nonempty df Hc Hne) as Hk.
  unfold featured_rows.
  destruct (group_keys df) as [|k keys] eqn:Hkeys; [congruence|].
  rewrite <- Hkeys; clear Hk.
  replace (pd_concat (map (fun t => frame_of sqrt (get_group t df)) (group_keys df)))
    with (Ok (concat (map (fun t => frame_of sqrt (get_group t df)) (group_keys df))))
    by (rewrite Hkeys; reflexivity).
  rewrite bind_Ok; f_equal.
  unfold dropna_featured.
  rewrite <- concat_filter_map, map_map; f_equal.
  apply map_ext; intros t.
  apply dropna_frame_of, cleaned_Forall, get_group_cleaned, Hc.
Qed.

Lemma frame_of_ticker (sqrt : Q -> Q) (df : DataFrame) (k : string)
  (x : FeaturedRow) :
  In x (frame_of sqrt (get_group k df)) -> TICKER (base x) = Some k.
Proof.
  intros Hx; apply (in_map base) in Hx.
  rewrite frame_of_base in Hx.
  apply sort_In, get_group_In in Hx; tauto.
Qed.

(** The rows of ticker [t] in the output of the feature stage. *)
Lemma featured_rows_of_ticker (sqrt : Q -> Q) (df : DataFrame) (t : string) :
  filter (fun x => has_ticker t (base x)) (featured_rows sqrt df)
  = skipn 10 (frame_of sqrt (get_group t df)).
Proof.
  unfold featured_rows.
  etransitivity;
    [apply (filter_concat_keys
              (fun t => skipn 10 (frame_of sqrt (get_group t df))) t
              (group_keys df) (group_keys_NoDup df))|].
  - intros k x _ Hx; apply (frame_of_ticker sqrt df).
    rewrite <- (firstn_skipn 10); apply in_or_app; right; exact Hx.
  - destruct (in_dec string_dec t (group_keys df)) as [Hi|Hi]; [reflexivity|].
    rewrite (get_group_absent t df Hi); reflexivity.
Qed.

Lemma group_keys_single (t : string) (df : DataFrame) :
  In t (group_keys df) -> group_keys (get_group t df) = [t].
Proof.
  intros Ht.
  pose proof (group_keys_NoDup (get_group t df)) as Hnd.
  assert (Hall : forall k, In k (group_keys (get_group t df)) -> k = t).
  { intros k Hk; apply group_keys_In in Hk; destruct Hk as (r & Hr & Hk).
    apply get_group_In in Hr; destruct Hr as [_ Hr]; congruence. }
  assert (Hin : In t (group_keys (get_group t df))).
  { apply group_keys_In in Ht; destruct Ht as (r & Hr & Ht).
    apply group_keys_In; exists r; split; [|exact Ht].
    apply get_group_In; auto. }
  destruct (group_keys (get_group t df)) as [|a [|b l]]; [destruct Hin| |].
  - rewrite (Hall a (or_introl eq_refl)); reflexivity.
  - exfalso; inversion Hnd as [|? ? Hna _]; subst; apply Hna.
    rewrite (Hall a (or_introl eq_refl)), (Hall b (or_intror (or_introl eq_refl))).
    left; reflexivity.
Qed.

Lemma get_group_idem (t : string) (df : DataFrame) :
  get_group t (get_group t df) = get_group t df.
Proof.
  unfold get_group; apply filter_id, Forall_forall.
  intros r Hr; apply filter_In in Hr; tauto.
Qed.

(* ================================================================== *)
(** * Claims about the feature stage *)

(** C1. In every ticker partition of a cleaned frame, taken in ascending date
    order, the return at row 0 is missing and at row i >= 1 it is
    close[i]/close[i-1] - 1; the 5-row average is missing before row 4 and
    from row 4 on it is the arithmetic mean of close[i-4..i]; the 10-row
    average is missing before row 9 and from row 9 on it is the mean of
    close[i-9..i].  On the closes 10, 11, 12, 11, 10, 9, 10, 11, 12, 13, 14
    the return at row 1 is 0.10 and the 5-row average at row 4 is 10.8. *)
Theorem returns_and_moving_averages (sqrt : Q -> Q) (df : DataFrame) (t : string) :
  cleaned df = true ->
  let g := sort_values_DATE (get_group t df) in
  let close := map close_of g in
  (StronglySorted (fun r1 r2 => date_leb r1 r2 = true) g /\
   Permutation g (get_group t df)) /\
  (exists fr,
     feature_frame sqrt (get_group t df) = Ok fr /\ map base fr = g /\
     forall i row, nth_error fr i = Some row ->
       (i = 0 -> Return_1d row = None) /\
       (1 <= i ->
        Return_1d row = Some (nth i close 0 / nth (i - 1) close 0 - 1)%Q) /\
       (i < 4 -> MA_5d row = None) /\
       (4 <= i -> MA_5d row = Some (arithmetic_mean (slice close (i - 4) 5))) /\
       (i < 9 -> MA_10d row = None) /\
       (9 <= i -> MA_10d row = Some (arithmetic_mean (slice close (i - 9) 10)))) /\
  (exists fr row1 row4 r m,
     feature_frame sqrt (bars_from t 0 spec_closes) = Ok fr /\
     nth_error fr 1 = Some row1 /\ Return_1d row1 = Some r /\ (r == 0.10)%Q /\
     nth_error fr 4 = Some row4 /\ MA_5d row4 = Some m /\ (m == 10.8)%Q).
Proof.
  intros Hc g close; split; [split|split].
  - apply sort_sorted; [exact date_leb_total|exact date_leb_trans].
  - apply sort_perm.
  - exists (frame_of sqrt (get_group t df)).
    split; [apply feature_frame_cleaned, cleaned_Forall, get_group_cleaned, Hc|].
    split; [apply frame_of_base|].
    intros i row H; apply frame_of_nth in H; cbv zeta in H.
    destruct H as (_ & Hr & H5 & H10 & _).
    fold g close in Hr, H5, H10.
    rewrite Hr, H5, H10; unfold return_spec, ma_spec, return_at.
    repeat split; intros Hi.
    + subst i; reflexivity.
    + destruct (Nat.leb_spec 1 i); [reflexivity|lia].
    + destruct (Nat.leb_spec 5 (S i)); [lia|reflexivity].
    + destruct (Nat.leb_spec 5 (S i)); [|lia].
      replace (S i - 5) with (i - 4) by lia; reflexivity.
    + destruct (Nat.leb_spec 10 (S i)); [lia|reflexivity].
    + destruct (Nat.leb_spec 10 (S i)); [|lia].
      replace (S i - 10) with (i - 9) by lia; reflexivity.
  - exists (frame_of sqrt (bars_from t 0 spec_closes)).
    do 4 eexists.
    split; [apply feature_frame_cleaned; repeat constructor|].
    split; [reflexivity|]; split; [reflexivity|]; split; [reflexivity|].
    split; [reflexivity|]; split; reflexivity.
Qed.

Lemma returns_and_moving_averages_witness :
  cleaned ex_two_tickers = true /\
  exists fr row1 row4 r m,
    feature_frame approx_sqrt (bars_from "T" 0 spec_closes) = Ok fr /\
    nth_error fr 1 = Some row1 /\ Return_1d row1 = Some r /\ (r == 0.10)%Q /\
    nth_error fr 4 = Some row4 /\ MA_5d row4 = Some m /\ (m == 10.8)%Q.
Proof.
  split; [reflexivity|].
  exact (proj2 (proj2 (returns_and_moving_averages approx_sqrt ex_two_tickers "T"
                         eq_refl))).
Defined.

Lemma assign_from_Return_1d (k : nat) (g : DataFrame) (ret ma5 ma10 vol : Series) :
  map Return_1d (assign_from k g ret ma5 ma10 vol)
  = map (fun j => nth j ret None) (seq k (length g)).
Proof.
  revert k; induction g as [|r g IH]; intros k; simpl; [reflexivity|].
  f_equal; apply IH.
Qed.

Lemma map_nth_seq (xs : Series) :
  map (fun j => nth j xs None) (seq 0 (length xs)) = xs.
Proof.
  induction xs as [|x xs IH]; simpl; [reflexivity|].
  f_equal; rewrite <- seq_shift, map_map; exact IH.
Qed.

Lemma pct_change_length (xs : Series) : length (pct_change xs) = length xs.
Proof.
  unfold pct_change, shift1; rewrite length_map, length_combine.
  apply Nat.min_r; cbn [length]; lia.
Qed.

(** The Return_1d column of the frame of a group is the return series of its
    closes. *)
Lemma frame_of_Return_1d (sqrt : Q -> Q) (g : DataFrame) :
  map Return_1d (frame_of sqrt g)
  = pct_change (map Some (map close_of (sort_values_DATE g))).
Proof.
  unfold frame_of; cbv zeta; rewrite assign_from_Return_1d.
  set (xs := pct_change (map Some (map close_of (sort_values_DATE g)))).
  replace (length (sort_values_DATE g)) with (length xs);
    [apply map_nth_seq|].
  unfold xs; rewrite pct_change_length, !length_map; reflexivity.
Qed.

Lemma returns_window (cs : list Q) (i : nat) :
  10 <= i -> i < length cs ->
  firstn 10 (skipn (i - 9) (pct_change (map Some cs)))
  = map Some (map (return_at cs) (seq (i - 9) 10)).
Proof.
  destruct cs as [|c cs]; simpl length; intros H10 Hi; [lia|].
  rewrite pct_change_Some.
  replace (i - 9) with (S (i - 10)) by lia.
  cbn [skipn]; rewrite skipn_map, firstn_map; f_equal.
  rewrite firstn_skipn_slice by (rewrite ratios_length; lia).
  apply slice_ratios; lia.
Qed.

(** C2. In every ticker partition of a cleaned frame the 10-row volatility is
    missing at every row before row 10, and at row i >= 10 it is the square
    root of the sample variance (divisor n - 1) of the ten returns of rows
    i-9..i, which are all defined. *)
Theorem rolling_volatility (sqrt : Q -> Q) (df : DataFrame) (t : string) :
  cleaned df = true ->
  let close := map close_of (sort_values_DATE (get_group t df)) in
  exists fr,
    feature_frame sqrt (get_group t df) = Ok fr /\
    length fr = length (get_group t df) /\
    forall i row, nth_error fr i = Some row ->
      (i < 10 -> Volatility_10d row = None) /\
      (10 <= i ->
       exists rs,
         map Return_1d (firstn 10 (skipn (i - 9) fr)) = map Some rs /\
         rs = map (fun j => (nth j close 0 / nth (j - 1) close 0 - 1)%Q)
                  (seq (i - 9) 10) /\
         Volatility_10d row = Some (sqrt (sample_variance rs))).
Proof.
  intros Hc close.
  exists (frame_of sqrt (get_group t df)).
  split; [apply feature_frame_cleaned, cleaned_Forall, get_group_cleaned, Hc|].
  split; [apply frame_of_length|].
  intros i row H.
  assert (Hi : i < length close).
  { unfold close; rewrite length_map, <- (frame_of_base sqrt), length_map.
    apply nth_error_Some; congruence. }
  apply frame_of_nth in H; cbv zeta in H.
  destruct H as (_ & _ & _ & _ & Hv); fold close in Hv.
  rewrite Hv; unfold vol_spec; split; intros H10.
  - destruct (Nat.leb_spec 10 i); [lia|reflexivity].
  - destruct (Nat.leb_spec 10 i); [|lia].
    exists (map (return_at close) (seq (i - 9) 10)).
    split; [|split; reflexivity].
    rewrite <- firstn_map, <- skipn_map, frame_of_Return_1d.
    apply returns_window; assumption.
Qed.

Lemma rolling_volatility_witness :
  cleaned ex_two_tickers = true /\
  exists fr,
    feature_frame approx_sqrt (get_group "T" ex_two_tickers) = Ok fr /\
    length fr = length (get_group "T" ex_two_tickers) /\
    forall i row, nth_error fr i = Some row ->
      (i < 10 -> Volatility_10d row = None) /\
      (10 <= i ->
       exists rs,
         map Return_1d (firstn 10 (skipn (i - 9) fr)) = map Some rs /\
         rs = map (fun j =>
                     (nth j (map close_of (sort_values_DATE
                                             (get_group "T" ex_two_tickers))) 0
                      / nth (j - 1) (map close_of (sort_values_DATE
                                             (get_group "T" ex_two_tickers))) 0
                      - 1)%Q)
                  (seq (i - 9) 10) /\
         Volatility_10d row = Some (approx_sqrt (sample_variance rs))).
Proof.
  split; [reflexivity|].
  exact (rolling_volatility approx_sqrt ex_two_tickers "T" eq_refl).
Defined.

(** C3. On a cleaned frame the feature stage keeps, for every ticker, the
    cleaned rows of that ticker in date order without the first ten: a
    ticker with n rows contributes n - 10 rows, none when n = 10 and one
    when n = 11. *)
Theorem minimum_history (p : string -> option Z) (sqrt : Q -> Q) (df : DataFrame) :
  cleaned df = true -> df <> [] ->
  exists out,
    engineer_features p sqrt df = Ok out /\
    forall t,
      map base (rows_of t out) = skipn 10 (sort_values_DATE (get_group t df)) /\
      length (rows_of t out) = length (get_group t df) - 10 /\
      (length (get_group t df) = 10 -> rows_of t out = []) /\
      (length (get_group t df) = 11 -> length (rows_of t out) = 1).
Proof.
  intros Hc Hne; exists (featured_rows sqrt df).
  split; [apply engineer_features_cleaned; assumption|].
  intros t; unfold rows_of; rewrite featured_rows_of_ticker.
  assert (Hlen : length (skipn 10 (frame_of sqrt (get_group t df)))
                 = length (get_group t df) - 10)
    by (rewrite length_skipn, frame_of_length; reflexivity).
  split; [|split; [exact Hlen|split]].
  - rewrite <- skipn_map, frame_of_base; reflexivity.
  - intros H10; rewrite H10 in Hlen.
    destruct (skipn 10 (frame_of sqrt (get_group t df))); [reflexivity|discriminate].
  - intros H11; rewrite Hlen, H11; reflexivity.
Qed.

Lemma minimum_history_witness :
  cleaned ex_short_history = true /\ ex_short_history <> [] /\
  length (get_group "S" ex_short_history) = 10 /\
  length (get_group "T" ex_short_history) = 11 /\
  exists out,
    engineer_features iso_date approx_sqrt ex_short_history = Ok out /\
    rows_of "S" out = [] /\ length (rows_of "T" out) = 1.
Proof.
  split; [reflexivity|]; split; [discriminate|].
  split; [reflexivity|]; split; [reflexivity|].
  destruct (minimum_history iso_date approx_sqrt ex_short_history eq_refl)
    as (out & Hout & H); [discriminate|].
  exists out; split; [exact Hout|]; split.
  - exact (proj1 (proj2 (proj2 (H "S"%string))) eq_refl).
  - exact (proj2 (proj2 (proj2 (H "T"%string))) eq_refl).
Defined.

(** C8. On a cleaned frame holding rows of ticker [t], in whatever order and
    mixed with rows of other tickers, the output rows of [t] are the whole
    output of the feature stage run on the rows of [t] alone. *)
Theorem ticker_independence (p : string -> option Z) (sqrt : Q -> Q)
  (df : DataFrame) (t : string) :
  cleaned df = true -> In t (group_keys df) ->
  exists out,
    engineer_features p sqrt df = Ok out /\
    engineer_features p sqrt (get_group t df) = Ok (rows_of t out).
Proof.
  intros Hc Ht; exists (featured_rows sqrt df).
  assert (Hg : get_group t df <> []).
  { apply group_keys_In in Ht; destruct Ht as (r & Hr & Ht).
    intros He; assert (Hin : In r (get_group t df)) by (apply get_group_In; auto).
    rewrite He in Hin; exact Hin. }
  split.
  - apply engineer_features_cleaned; [exact Hc|].
    intros He; rewrite He in Hg; apply Hg; reflexivity.
  - rewrite engineer_features_cleaned by (auto using get_group_cleaned).
    f_equal; unfold rows_of; rewrite featured_rows_of_ticker.
    unfold featured_rows.
    rewrite (group_keys_single t df Ht); simpl.
    rewrite get_group_idem; apply app_nil_r.
Qed.

Lemma ticker_independence_witness :
  cleaned ex_two_tickers = true /\ In "T"%string (group_keys ex_two_tickers) /\
  exists out,
    engineer_features iso_date approx_sqrt ex_two_tickers = Ok out /\
    engineer_features iso_date approx_sqrt (get_group "T" ex_two_tickers)
    = Ok (rows_of "T" out).
Proof.
  split; [reflexivity|]; split; [left; reflexivity|].
  apply (ticker_independence iso_date approx_sqrt ex_two_tickers "T" eq_refl).
  left; reflexivity.
Defined.

Lemma filter_or_disjoint (A : Type) (f g : A -> bool) (l : list A) :
  (forall x, f x = true -> g x = true -> False) ->
  Permutation (filter (fun x => f x || g x) l) (filter f l ++ filter g l).
Proof.
  intros H; induction l as [|x l IH]; simpl; [constructor|].
  destruct (f x) eqn:Hf, (g x) eqn:Hg; simpl.
  - elim (H x Hf Hg).
  - constructor; exact IH.
  - apply Permutation_cons_app; exact IH.
  - exact IH.
Qed.

(** The groups partition the rows that have a ticker. *)
Lemma groups_partition (df : DataFrame) (keys : list string) :
  NoDup keys ->
  Permutation (concat (map (fun t => get_group t df) keys))
              (filter (fun r => existsb (fun t => has_ticker t r) keys) df).
Proof.
  induction 1 as [|k keys Hk _ IH]; simpl.
  - rewrite filter_none; [constructor|reflexivity].
  - rewrite filter_or_disjoint.
    + apply Permutation_app_head, IH.
    + intros r Hr He; apply existsb_exists in He; destruct He as (t & Ht & He).
      apply has_ticker_spec in Hr, He.
      apply Hk; congruence.
Qed.

Lemma concat_map_app (A B : Type) (a b : A -> list B) (l : list A) :
  Permutation (concat (map (fun x => a x ++ b x) l))
              (concat (map a l) ++ concat (map b l)).
Proof.
  induction l as [|x l IH]; simpl; [constructor|].
  rewrite IH, <- !app_assoc.
  apply Permutation_app_head, Permutation_app_swap_app.
Qed.

(** C10. Whenever the feature stage returns on a cleaned frame, the original
    fields of the output rows, together with those of the dropped rows, are
    the input rows, each once: every output row carries the seven original
    fields of one input row unchanged, and no input row is used twice. *)
Theorem original_fields_kept (p : string -> option Z) (sqrt : Q -> Q)
  (df : DataFrame) (out : FeaturedFrame) :
  cleaned df = true ->
  engineer_features p sqrt df = Ok out ->
  exists dropped, Permutation (map base out ++ dropped) df.
Proof.
  intros Hc Hout.
  assert (Hne : df <> []) by (intros ->; discriminate Hout).
  rewrite (engineer_features_cleaned p sqrt df Hc Hne) in Hout.
  inversion Hout; subst out; clear Hout.
  exists (concat (map (fun t => firstn 10 (sort_values_DATE (get_group t df)))
                      (group_keys df))).
  unfold featured_rows.
  rewrite concat_map, map_map.
  rewrite (map_ext _ (fun t => skipn 10 (sort_values_DATE (get_group t df))))
    by (intros t; rewrite <- skipn_map, frame_of_base; reflexivity).
  rewrite Permutation_app_comm, <- concat_map_app.
  rewrite (map_ext _ (fun t => sort_values_DATE (get_group t df)))
    by (intros t; apply firstn_skipn).
  transitivity (concat (map (fun t => get_group t df) (group_keys df))).
  - clear; induction (group_keys df) as [|k keys IH]; simpl; [constructor|].
    apply Permutation_app; [apply sort_perm|exact IH].
  - rewrite groups_partition by apply group_keys_NoDup.
    rewrite filter_id; [reflexivity|].
    apply cleaned_Forall in Hc; rewrite Forall_forall in *; intros r Hr.
    pose proof (Hc r Hr) as Hpr; apply price_record_spec in Hpr.
    destruct Hpr as (t & d & o & c & h & l & v & Heq & _).
    apply existsb_exists; exists t; split.
    + apply group_keys_In; exists r; subst r; auto.
    + apply has_ticker_spec; subst r; reflexivity.
Qed.

Lemma original_fields_kept_witness :
  cleaned ex_two_tickers = true /\
  engineer_features iso_date approx_sqrt ex_two_tickers
  = Ok (featured_rows approx_sqrt ex_two_tickers) /\
  exists dropped,
    Permutation (map base (featured_rows approx_sqrt ex_two_tickers) ++ dropped)
                ex_two_tickers.
Proof.
  assert (H : engineer_features iso_date approx_sqrt ex_two_tickers
              = Ok (featured_rows approx_sqrt ex_two_tickers))
    by (vm_compute; reflexivity).
  split; [reflexivity|]; split; [exact H|].
  exact (original_fields_kept iso_date approx_sqrt ex_two_tickers
           (featured_rows approx_sqrt ex_two_tickers) eq_refl H).
Defined.

(* ================================================================== *)
(** * Order of the featured output *)

Lemma StronglySorted_app (A : Type) (R : A -> A -> Prop) (l1 l2 : list A) :
  StronglySorted R l1 -> StronglySorted R l2 ->
  (forall x y, In x l1 -> In y l2 -> R x y) ->
  StronglySorted R (l1 ++ l2).
Proof.
  intros H1 H2 H; induction H1 as [|x l1 _ IH Hx]; simpl; [exact H2|].
  constructor.
  - apply IH; intros a b Ha Hb; apply H; [right; exact Ha|exact Hb].
  - apply Forall_app; split; [exact Hx|].
    apply Forall_forall; intros y Hy; apply H; [left; reflexivity|exact Hy].
Qed.

Lemma StronglySorted_skipn (A : Type) (R : A -> A -> Prop) (n : nat) (l : list A) :
  StronglySorted R l -> StronglySorted R (skipn n l).
Proof.
  intros H; revert n; induction H as [|x l Hs IH Hx]; intros n.
  - destruct n; constructor.
  - destruct n as [|n]; [constructor; assumption|apply IH].
Qed.


(** Frames laid out along strictly ascending keys are sorted when each
    frame is and rows of an earlier key are below rows of a later one. *)
Lemma StronglySorted_concat (A K : Type) (R : A -> A -> Prop) (S : K -> K -> Prop)
  (F : K -> list A) (keys : list K) :
  StronglySorted S keys ->
  (forall k, In k keys -> StronglySorted R (F k)) ->
  (forall k1 k2 x y, S k1 k2 -> In x (F k1) -> In y (F k2) -> R x y) ->
  StronglySorted R (concat (map F keys)).
Proof.
  intros Hk HF HR; induction Hk as [|k keys _ IH Hlt]; simpl; [constructor|].
  apply StronglySorted_app.
  - apply HF; left; reflexivity.
  - apply IH; intros k' Hk'; apply HF; right; exact Hk'.
  - intros x y Hx Hy.
    apply in_concat in Hy; destruct Hy as (l & Hl & Hy).
    apply in_map_iff in Hl; destruct Hl as (k' & <- & Hk').
    rewrite Forall_forall in Hlt.
    apply (HR k k'); auto.
Qed.

Lemma string_ltb_of_leb (a b : string) :
  String.leb a b = true -> a <> b -> String.ltb a b = true.
Proof.
  unfold String.leb, String.ltb; intros H Hne.
  destruct (String.compare a b) eqn:Hc; try reflexivity; try discriminate.
  elim Hne; apply String.compare_eq_iff, Hc.
Qed.

(** The group keys ascend strictly. *)
Lemma group_keys_ascending (df : DataFrame) :
  StronglySorted (fun a b => String.ltb a b = true) (group_keys df).
Proof.
  pose proof (group_keys_NoDup df) as Hnd.
  assert (Hs : StronglySorted (fun a b => String.leb a b = true) (group_keys df))
    by (apply sort_sorted; [exact String.leb_total|exact string_leb_trans]).
  induction Hs as [|k keys _ IH Hk]; [constructor|].
  inversion Hnd as [|? ? Hnin Hnd']; subst.
  constructor; [apply IH, Hnd'|].
  rewrite Forall_forall in *; intros k' Hk'.
  apply string_ltb_of_leb; [apply Hk, Hk'|].
  intros ->; contradiction.
Qed.

Lemma date_leb_key_le (t : string) (r1 r2 : Row) :
  price_record r1 = true -> price_record r2 = true ->
  TICKER r1 = Some t -> TICKER r2 = Some t ->
  date_leb r1 r2 = true -> key_le r1 r2.
Proof.
  unfold price_record, date_leb, key_le.
  destruct r1 as [t1 [|s1|d1] o1 c1 h1 l1 v1]; simpl;
    rewrite ?andb_false_r; try discriminate.
  destruct r2 as [t2 [|s2|d2] o2 c2 h2 l2 v2]; simpl;
    rewrite ?andb_false_r; try discriminate.
  intros _ _ -> -> H; exists t, d1, t, d2; repeat split.
  right; split; [reflexivity|apply Z.leb_le, H].
Qed.


(** The original rows of the featured output of a cleaned frame lie in
    (TICKER, DATE) order. *)
Lemma featured_rows_sorted (sqrt : Q -> Q) (df : DataFrame) :
  cleaned df = true ->
  StronglySorted key_le (map base (featured_rows sqrt df)).
Proof.
  intros Hc; unfold featured_rows.
  rewrite concat_map, map_map.
  assert (Hpr : forall k x,
             In x (map base (skipn 10 (frame_of sqrt (get_group k df)))) ->
             price_record x = true /\ TICKER x = Some k).
  { intros k x Hx; rewrite <- skipn_map, frame_of_base in Hx.
    assert (Hin : In x (sort_values_DATE (get_group k df)))
      by (rewrite <- (firstn_skipn 10); apply in_or_app; right; exact Hx).
    apply sort_In, get_group_In in Hin; destruct Hin as [Hin Ht].
    split; [|exact Ht].
    apply cleaned_Forall in Hc; rewrite Forall_forall in Hc; apply Hc, Hin. }
  apply (StronglySorted_concat _ _ _ (fun a b => String.ltb a b = true)).
  - apply group_keys_ascending.
  - intros k _.
    rewrite <- skipn_map, frame_of_base.
    apply StronglySorted_skipn.
    apply (StronglySorted_impl _
             (fun r => price_record r = true /\ TICKER r = Some k)
             (fun r1 r2 => date_leb r1 r2 = true)).
    + intros x y [Px Tx] [Py Ty]; apply (date_leb_key_le k); assumption.
    + apply Forall_forall; intros x Hx.
      apply sort_In, get_group_In in Hx; destruct Hx as [Hin Ht].
      split; [|exact Ht].
      apply cleaned_Forall in Hc; rewrite Forall_forall in Hc; apply Hc, Hin.
    + apply sort_sorted; [exact date_leb_total|exact date_leb_trans].
  - intros k1 k2 x y Hlt Hx Hy.
    apply Hpr in Hx, Hy; destruct Hx as [Px Tx], Hy as [Py Ty].
    apply price_record_spec in Px, Py.
    destruct Px as (t1 & d1 & o1 & c1 & h1 & l1 & v1 & -> & _).
    destruct Py as (t2 & d2 & o2 & c2 & h2 & l2 & v2 & -> & _).
    simpl in Tx, Ty; inversion Tx; inversion Ty; subst.
    exists k1, d1, k2, d2; simpl; auto 10.
Qed.

(** X1. Whenever the feature stage returns on a cleaned frame, its rows
    come ticker by ticker in ascending ticker order and, within a ticker, in
    ascending date order. *)
Theorem featured_output_order (p : string -> option Z) (sqrt : Q -> Q)
  (df : DataFrame) (out : FeaturedFrame) :
  cleaned df = true ->
  engineer_features p sqrt df = Ok out ->
  StronglySorted key_le (map base out).
Proof.
  intros Hc Hout.
  assert (Hne : df <> []) by (intros ->; discriminate Hout).
  rewrite (engineer_features_cleaned p sqrt df Hc Hne) in Hout.
  inversion Hout; subst out.
  apply featured_rows_sorted, Hc.
Qed.

Lemma featured_output_order_witness :
  cleaned ex_two_tickers = true /\
  engineer_features iso_date approx_sqrt ex_two_tickers
  = Ok (featured_rows approx_sqrt ex_two_tickers) /\
  StronglySorted key_le (map base (featured_rows approx_sqrt ex_two_tickers)).
Proof.
  assert (H : engineer_features iso_date approx_sqrt ex_two_tickers
              = Ok (featured_rows approx_sqrt ex_two_tickers))
    by (vm_compute; reflexivity).
  split; [reflexivity|]; split; [exact H|].
  exact (featured_output_order iso_date approx_sqrt ex_two_tickers
           (featured_rows approx_sqrt ex_two_tickers) eq_refl H).
Defined.

(* ================================================================== *)
(** * The two stages in sequence *)





(* ================================================================== *)
(** * Windows look backwards only *)


Lemma assign_from_length (k : nat) (g : DataFrame) (ret ma5 ma10 vol : Series) :
  length (assign_from k g ret ma5 ma10 vol) = length g.
Proof.
  rewrite <- (length_map base), assign_from_base; reflexivity.
Qed.







(* ================================================================== *)
(** * Outcomes of the feature stage on any frame *)

Lemma mapM_Raise (A B : Type) (f : A -> result B) (e : error) (l : list A) :
  (forall a, In a l -> f a = Raise e \/ exists b, f a = Ok b) ->
  Exists (fun a => f a = Raise e) l -> mapM f l = Raise e.
Proof.
  intros Hall Hex; induction Hex as [a l Ha|a l _ IH]; simpl.
  - rewrite Ha; reflexivity.
  - destruct (Hall a (or_introl eq_refl)) as [Ha|[b Ha]]; rewrite Ha;
      [reflexivity|].
    rewrite bind_Ok, IH; [reflexivity|].
    intros a' Ha'; apply Hall; right; exact Ha'.
Qed.








(* ================================================================== *)
(** * When the cleaning stage meets text *)

Lemma gt_zero_cases (c : num_cell) :
  gt_zero c = Raise TypeError \/ exists b, gt_zero c = Ok b.
Proof. destruct c; simpl; eauto. Qed.

Lemma filter_gt_zero_Raise (col : Row -> num_cell) (df : DataFrame) :
  Exists (fun r => numeric_cell (col r) = false) df ->
  filter_gt_zero col df = Raise TypeError.
Proof.
  intros H; unfold filter_gt_zero.
  rewrite (mapM_Raise _ _ (fun r => gt_zero (col r)) TypeError); [reflexivity| |].
  - intros r _; apply gt_zero_cases.
  - eapply Exists_impl; [|exact H].
    intros r Hr; simpl in Hr.
    destruct (col r); simpl in *; try discriminate; reflexivity.
Qed.

Lemma filter_positive_text (cols : list (Row -> num_cell)) (df : DataFrame) :
  (Exists (fun r => reaches_text cols r = true) df ->
   filter_positive cols df = Raise TypeError) /\
  (Forall (fun r => reaches_text cols r = false) df ->
   exists out, filter_positive cols df = Ok out).
Proof.
  revert df; induction cols as [|col cols IH]; intros df; simpl.
  - split; [|eauto].
    intros H; apply Exists_exists in H; destruct H as (r & _ & Hr); discriminate.
  - destruct (Forall_Exists_dec (fun r => numeric_cell (col r) = true)
                (fun r => bool_dec _ true) df) as [Hnum|Htext].
    + rewrite (filter_gt_zero_total col df Hnum), bind_Ok.
      destruct (IH (filter (fun r => positive_cell (col r)) df)) as [IHr IHo].
      split; intros H.
      * apply IHr, Exists_exists.
        apply Exists_exists in H; destruct H as (r & Hr & Ht).
        rewrite Forall_forall in Hnum; specialize (Hnum r Hr); simpl in Hnum.
        exists r; rewrite filter_In.
        destruct (col r); simpl in *; try discriminate.
        apply andb_true_iff in Ht; tauto.
      * apply IHo, Forall_forall; intros r Hr.
        apply filter_In in Hr; destruct Hr as [Hr Hpos].
        rewrite Forall_forall in H; specialize (H r Hr); simpl in H.
        destruct (col r); simpl in *; try discriminate.
        rewrite Hpos in H; exact H.
    + rewrite filter_gt_zero_Raise.
      2:{ eapply Exists_impl; [|exact Htext].
          intros r Hr; simpl in Hr.
          destruct (numeric_cell (col r)); congruence. }
      split; [reflexivity|intros H].
      exfalso; apply Exists_exists in Htext; destruct Htext as (r & Hr & Hn).
      rewrite Forall_forall in H; specialize (H r Hr); simpl in H, Hn.
      destruct (col r); simpl in *; try discriminate; congruence.
Qed.

Lemma to_datetime_conversions (p : string -> option Z) (e : error)
  (df parsed : DataFrame) :
  to_datetime p e df = Ok parsed ->
  (forall r, In r df -> exists r', In r' parsed /\ conversion_of p r r') /\
  (forall r', In r' parsed -> exists r, In r df /\ conversion_of p r r').
Proof.
  intros H; apply to_datetime_rows in H.
  induction H as [|r r' df parsed Hs _ [IH1 IH2]].
  - split; intros x [].
  - split.
    + intros x [<-|Hx]; [exists r'; split; [left; reflexivity|exact Hs]|].
      destruct (IH1 x Hx) as (x' & Hx' & Hsx); exists x'; split; [right|]; auto.
    + intros x' [<-|Hx']; [exists r; split; [left; reflexivity|exact Hs]|].
      destruct (IH2 x' Hx') as (x & Hx & Hsx); exists x; split; [right|]; auto.
Qed.

Lemma conversion_meets_text (p : string -> option Z) (r r' : Row) :
  conversion_of p r r' -> meets_text r' = meets_text r.
Proof.
  intros [(Ht & Ho & Hc & Hh & Hl & Hv) Hd].
  unfold meets_text, notna_row, price_cols; simpl.
  rewrite Ht, Ho, Hc, Hh, Hl, Hv; do 2 f_equal.
  destruct (DATE r) as [|s|t]; simpl in Hd.
  - inversion Hd; reflexivity.
  - destruct (p s); inversion Hd; reflexivity.
  - inversion Hd; reflexivity.
Qed.

(** X5. When every date parses, the cleaning stage raises a TypeError
    exactly when some row without a missing field holds text in a price
    column and positive numbers in all the price columns before it;
    otherwise it returns.  Text in a row that has a missing field, or that
    an earlier column already rejects, does no harm. *)
Theorem clean_data_text_cells (p : string -> option Z) (df : DataFrame) :
  Forall (fun r => to_datetime_cell p (DATE r) <> None) df ->
  (Exists (fun r => meets_text r = true) df ->
   clean_data p df = Raise TypeError) /\
  (Forall (fun r => meets_text r = false) df ->
   exists out, clean_data p df = Ok out).
Proof.
  intros Hd; unfold clean_data.
  destruct (to_datetime_total p ExitInvalidDate df Hd) as [parsed Hp].
  rewrite Hp, bind_Ok; cbv zeta.
  destruct (to_datetime_conversions p ExitInvalidDate df parsed Hp) as [Hfw Hbw].
  destruct (filter_positive_text price_cols (dropna parsed)) as [Hr Ho].
  split; intros H.
  - rewrite Hr; [reflexivity|].
    apply Exists_exists in H; destruct H as (r & Hin & Hm).
    destruct (Hfw r Hin) as (r' & Hin' & Hconv).
    rewrite <- (conversion_meets_text p r r' Hconv) in Hm.
    apply andb_true_iff in Hm; destruct Hm as [Hna Hrt].
    apply Exists_exists; exists r'; split; [|exact Hrt].
    apply filter_In; auto.
  - destruct Ho as [out Hout]; [|rewrite Hout, bind_Ok; eauto].
    apply Forall_forall; intros r' Hin'.
    apply filter_In in Hin'; destruct Hin' as [Hin' Hna].
    destruct (Hbw r' Hin') as (r & Hin & Hconv).
    rewrite Forall_forall in H; specialize (H r Hin); simpl in H.
    rewrite <- (conversion_meets_text p r r' Hconv) in H.
    unfold meets_text in H; rewrite Hna in H; exact H.
Qed.

Lemma clean_data_text_cells_witness :
  (Forall (fun r => to_datetime_cell iso_date (DATE r) <> None) ex_non_numeric /\
   Exists (fun r => meets_text r = true) ex_non_numeric /\
   clean_data iso_date ex_non_numeric = Raise TypeError) /\
  (Forall (fun r => to_datetime_cell iso_date (DATE r) <> None) ex_harmless_text /\
   Forall (fun r => meets_text r = false) ex_harmless_text /\
   exists out, clean_data iso_date ex_harmless_text = Ok out).
Proof.
  assert (Hd1 : Forall (fun r => to_datetime_cell iso_date (DATE r) <> None)
                       ex_non_numeric)
    by (repeat constructor; vm_compute; discriminate).
  assert (Hm1 : Exists (fun r => meets_text r = true) ex_non_numeric)
    by (apply Exists_cons_hd; reflexivity).
  assert (Hd2 : Forall (fun r => to_datetime_cell iso_date (DATE r) <> None)
                       ex_harmless_text)
    by (repeat constructor; vm_compute; discriminate).
  assert (Hm2 : Forall (fun r => meets_text r = false) ex_harmless_text)
    by (repeat constructor).
  split; [split; [exact Hd1|split; [exact Hm1|]]
         |split; [exact Hd2|split; [exact Hm2|]]].
  - exact (proj1 (clean_data_text_cells iso_date ex_non_numeric Hd1) Hm1).
  - exact (proj2 (clean_data_text_cells iso_date ex_harmless_text Hd2) Hm2).
Defined.

(* ================================================================== *)
(** * The order of the input rows *)

Lemma to_datetime_convert (p : string -> option Z) (e : error)
  (df parsed : DataFrame) :
  to_datetime p e df = Ok parsed ->
  parsed = map (convert p) df /\
  Forall (fun r => to_datetime_cell p (DATE r) <> None) df.
Proof.
  revert parsed; induction df as [|r df IH]; simpl; intros parsed H.
  - inversion H; split; [reflexivity|constructor].
  - unfold convert at 1.
    destruct (to_datetime_cell p (DATE r)) as [d|] eqn:Hd; [|discriminate].
    destruct (to_datetime p e df) as [rest|]; simpl in H; [|discriminate].
    inversion H; subst; destruct (IH rest eq_refl) as [-> Hall].
    split; [reflexivity|constructor; [congruence|exact Hall]].
Qed.









(* ================================================================== *)
(** * Configuration and command line *)

Lemma dict_get_set_same (k : string) (v : yaml) (d : dict) :
  dict_get k (dict_set k v d) = Some v.
Proof.
  induction d as [|[k' v'] d IH]; simpl.
  - rewrite String.eqb_refl; reflexivity.
  - destruct (String.eqb k k') eqn:E; simpl.
    + rewrite String.eqb_refl; reflexivity.
    + rewrite E; exact IH.
Qed.

Lemma dict_get_set_other (k k' : string) (v : yaml) (d : dict) :
  k <> k' -> dict_get k (dict_set k' v d) = dict_get k d.
Proof.
  intros Hne; induction d as [|[k'' v''] d IH]; simpl.
  - destruct (String.eqb_spec k k'); [contradiction|reflexivity].
  - destruct (String.eqb_spec k' k''); simpl.
    + subst k''; destruct (String.eqb_spec k k'); [contradiction|reflexivity].
    + destruct (String.eqb k k''); [reflexivity|exact IH].
Qed.

Lemma dict_set_same (k : string) (v : yaml) (d : dict) :
  dict_get k d = Some v -> dict_set k v d = d.
Proof.
  induction d as [|[k' v'] d IH]; simpl; [discriminate|].
  destruct (String.eqb_spec k k') as [->|Hne]; intros H.
  - inversion H; reflexivity.
  - f_equal; apply IH, H.
Qed.

Lemma dict_get_set_if (k k' : string) (a : option yaml) (d : dict) :
  dict_get k (set_if k' a d)
  = if String.eqb k k'
    then match a with Some v => Some v | None => dict_get k d end
    else dict_get k d.
Proof.
  destruct a as [v|]; simpl.
  - destruct (String.eqb_spec k k') as [->|Hne].
    + apply dict_get_set_same.
    + apply dict_get_set_other, Hne.
  - destruct (String.eqb k k'); reflexivity.
Qed.

(** X7. In the merged configuration each of the keys tickers, start_date,
    end_date and output_dir holds the command-line value when that value was
    given and is not empty, and the value of the configuration file
    otherwise (an empty string on the command line overrides nothing); every
    other key keeps the value of the configuration file. *)
Theorem merge_config_and_args_lookup (config : dict) (args : Namespace)
  (k : string) :
  dict_get k (merge_config_and_args config args)
  = match override k args with
    | Some v => Some v
    | None => dict_get k config
    end.
Proof.
  unfold merge_config_and_args, override; cbv zeta.
  rewrite !dict_get_set_if.
  destruct (String.eqb_spec k "tickers") as [->|H1]; simpl;
    [destruct (truthy_list (arg_tickers args)); reflexivity|].
  destruct (String.eqb_spec k "start_date") as [->|H2]; simpl;
    [destruct (truthy_str (arg_start_date args)); reflexivity|].
  destruct (String.eqb_spec k "end_date") as [->|H3]; simpl;
    [destruct (truthy_str (arg_end_date args)); reflexivity|].
  destruct (String.eqb_spec k "output_dir") as [->|H4]; simpl;
    [destruct (truthy_str (arg_output_dir args)); reflexivity|].
  reflexivity.
Qed.

Lemma merge_holds_override (config : dict) (args : Namespace) (k : string)
  (v : yaml) :
  override k args = Some v ->
  dict_get k (merge_config_and_args config args) = Some v.
Proof.
  unfold merge_config_and_args, override; cbv zeta.
  rewrite !dict_get_set_if.
  destruct (String.eqb_spec k "tickers") as [->|H1]; simpl;
    [intros ->; reflexivity|].
  destruct (String.eqb_spec k "start_date") as [->|H2]; simpl;
    [intros ->; reflexivity|].
  destruct (String.eqb_spec k "end_date") as [->|H3]; simpl;
    [intros ->; reflexivity|].
  destruct (String.eqb_spec k "output_dir") as [->|H4]; simpl;
    [intros ->; reflexivity|discriminate].
Qed.

Lemma set_if_same (k : string) (a : option yaml) (d : dict) :
  (forall v, a = Some v -> dict_get k d = Some v) -> set_if k a d = d.
Proof.
  destruct a as [v|]; simpl; intros H; [|reflexivity].
  apply dict_set_same, H; reflexivity.
Qed.

(** X8. Merging the same command-line arguments a second time changes
    nothing. *)
Theorem merge_config_and_args_idempotent (config : dict) (args : Namespace) :
  merge_config_and_args (merge_config_and_args config args) args
  = merge_config_and_args config args.
Proof.
  set (m := merge_config_and_args config args).
  assert (H : forall k v, override k args = Some v -> dict_get k m = Some v).
  { intros k v Hk; apply merge_holds_override, Hk. }
  unfold merge_config_and_args at 1; cbv zeta.
  rewrite (set_if_same "tickers") by (intros v Hv; apply H; exact Hv).
  rewrite (set_if_same "start_date") by (intros v Hv; apply H; exact Hv).
  rewrite (set_if_same "end_date") by (intros v Hv; apply H; exact Hv).
  rewrite (set_if_same "output_dir") by (intros v Hv; apply H; exact Hv).
  reflexivity.
Qed.

(* ================================================================== *)
(** * Downloading ticker by ticker *)

Lemma download_loop_app (fetch : string -> option DataFrame)
  (tickers : list string) (all_data : list DataFrame) :
  download_loop fetch tickers all_data
  = all_data
    ++ flat_map (fun t => match fetch t with Some df => [df] | None => [] end)
                tickers.
Proof.
  unfold download_loop; revert all_data.
  induction tickers as [|t tickers IH]; intros all_data; simpl.
  - rewrite app_nil_r; reflexivity.
  - rewrite IH; destruct (fetch t) as [df|]; simpl; [|reflexivity].
    rewrite <- app_assoc; reflexivity.
Qed.

Lemma concat_fetched (fetch : string -> option DataFrame) (tickers : list string) :
  concat (flat_map (fun t => match fetch t with Some df => [df] | None => [] end)
                   tickers)
  = flat_map (fun t => match fetch t with Some df => df | None => [] end) tickers.
Proof.
  induction tickers as [|t tickers IH]; simpl; [reflexivity|].
  rewrite concat_app, IH.
  destruct (fetch t); simpl; rewrite ?app_nil_r; reflexivity.
Qed.

(** X9. A ticker whose request fails is skipped and costs the others
    nothing: the download exits only when the request fails for every ticker
    of the list (an empty list among them), and otherwise returns the frames
    of the tickers that answered, in the order of the list. *)
Theorem download_data_outcome (fetch : string -> option DataFrame)
  (tickers : list string) :
  ((forall t, In t tickers -> fetch t = None) ->
   download_data fetch tickers = ExitNoData) /\
  ((exists t, In t tickers /\ fetch t <> None) ->
   download_data fetch tickers
   = Downloaded (flat_map (fun t => match fetch t with
                                    | Some df => df
                                    | None => []
                                    end) tickers)).
Proof.
  unfold download_data; rewrite download_loop_app; simpl app.
  split.
  - intros H.
    replace (flat_map (fun t => match fetch t with Some df => [df] | None => [] end)
                      tickers) with (@nil DataFrame); [reflexivity|].
    symmetry; induction tickers as [|t tickers IH]; simpl; [reflexivity|].
    rewrite (H t (or_introl eq_refl)); apply IH.
    intros t' Ht'; apply H; right; exact Ht'.
  - intros (t & Ht & Hf).
    rewrite <- concat_fetched.
    destruct (flat_map (fun t => match fetch t with Some df => [df] | None => [] end)
                       tickers) as [|df all_data] eqn:E; [|reflexivity].
    exfalso; destruct (fetch t) as [df|] eqn:Hft; [|congruence].
    assert (Hin : In df (flat_map (fun t => match fetch t with
                                            | Some df => [df]
                                            | None => []
                                            end) tickers)).
    { apply in_flat_map; exists t; split; [exact Ht|].
      rewrite Hft; left; reflexivity. }
    rewrite E in Hin; exact Hin.
Qed.

Lemma download_data_outcome_witness :
  ((forall t, In t ["TSLA"%string] -> ex_fetch t = None) /\
   download_data ex_fetch ["TSLA"%string] = ExitNoData) /\
  ((exists t, In t ["AAPL"; "TSLA"; "MSFT"]%string /\ ex_fetch t <> None) /\
   download_data ex_fetch ["AAPL"; "TSLA"; "MSFT"]%string
   = Downloaded (flat_map (fun t => match ex_fetch t with
                                    | Some df => df
                                    | None => []
                                    end) ["AAPL"; "TSLA"; "MSFT"]%string)).
Proof.
  assert (H1 : forall t, In t ["TSLA"%string] -> ex_fetch t = None)
    by (intros t [<-|[]]; reflexivity).
  assert (H2 : exists t, In t ["AAPL"; "TSLA"; "MSFT"]%string /\ ex_fetch t <> None)
    by (exists "AAPL"%string; split; [left; reflexivity|discriminate]).
  split; [split; [exact H1|]|split; [exact H2|]].
  - exact (proj1 (download_data_outcome ex_fetch ["TSLA"%string]) H1).
  - exact (proj2 (download_data_outcome ex_fetch ["AAPL"; "TSLA"; "MSFT"]%string) H2).
Defined.

(* ================================================================== *)
(** * The first ten rows of a ticker, on any frame *)

Lemma observations_length (xs : Series) : length (observations xs) <= length xs.
Proof.
  induction xs as [|[q|] xs IH]; simpl; lia.
Qed.

(** A window that still holds the NaN at the head of a series has fewer
    observations than cells. *)
Lemma rolling_head_None (w : nat) (agg : list Q -> Q) (ys : Series) (i : nat) :
  i < w -> nth i (rolling w agg (None :: ys)) None = None.
Proof.
  intros Hi.
  destruct (Nat.lt_ge_cases i (length (None :: ys))) as [Hlt|Hge].
  - rewrite rolling_nth by exact Hlt.
    unfold window; replace (S i - w) with 0 by lia.
    rewrite Nat.sub_0_r; simpl.
    pose proof (observations_length (firstn i ys)) as Ho.
    rewrite length_firstn in Ho.
    destruct (Nat.leb_spec w (length (observations (firstn i ys))));
      [lia|reflexivity].
  - apply nth_overflow; rewrite rolling_length; exact Hge.
Qed.

Lemma pct_change_head (x : option Q) (xs : Series) :
  exists ys, pct_change (x :: xs) = None :: ys.
Proof. unfold pct_change, shift1; simpl; eauto. Qed.

Lemma filter_length_from (A : Type) (f : A -> bool) (l : list A) (k : nat) :
  (forall i x, nth_error l i = Some x -> i < k -> f x = false) ->
  length (filter f l) <= length l - k.
Proof.
  revert k; induction l as [|x l IH]; intros k H; simpl; [lia|].
  destruct k as [|k].
  - pose proof (filter_length_le f l); destruct (f x); simpl; lia.
  - rewrite (H 0 x eq_refl) by lia; simpl.
    apply IH; intros i y Hy Hi; apply (H (S i) y Hy); lia.
Qed.

(** Whatever the closes, a frame the loop body returns has as many rows as
    its group, in the group's rows, and loses its first ten rows to
    [dropna]. *)
Lemma feature_frame_Ok (sqrt : Q -> Q) (g : DataFrame) (fr : FeaturedFrame) :
  feature_frame sqrt g = Ok fr ->
  map base fr = sort_values_DATE g /\
  length (dropna_featured fr) <= length g - 10.
Proof.
  unfold feature_frame; cbv zeta; intros H.
  apply bind_Ok_inv in H; destruct H as (close & Hclose & H).
  inversion H; subst fr; clear H.
  split; [apply assign_from_base|].
  set (fr := assign_from 0 (sort_values_DATE g) (pct_change close)
               (rolling 5 mean close) (rolling 10 mean close)
               (rolling 10 (std sqrt) (pct_change close))).
  assert (Hlen : length fr = length g)
    by (unfold fr; rewrite assign_from_length; apply sort_length).
  rewrite <- Hlen; unfold fr.
  apply filter_length_from; intros i row Hrow Hi.
  apply assign_from_nth in Hrow; simpl in Hrow.
  destruct Hrow as (Hb & _ & _ & _ & Hv).
  unfold notna_featured; rewrite Hv.
  destruct close as [|x close].
  - apply mapM_length in Hclose; simpl in Hclose.
    apply nth_error_In in Hb.
    unfold sort_values_DATE in *.
    destruct (sort date_leb g); [destruct Hb|discriminate].
  - destruct (pct_change_head x close) as [ys ->].
    rewrite rolling_head_None by exact Hi.
    simpl; apply andb_false_r.
Qed.

Lemma mapM_Ok_map (A B : Type) (f : A -> result B) (d : B) (l : list A)
  (bs : list B) :
  mapM f l = Ok bs ->
  bs = map (fun a => match f a with Ok b => b | Raise _ => d end) l.
Proof.
  intros H; apply mapM_Ok_inv in H.
  induction H as [|a b l bs Ha _ IH]; simpl; [reflexivity|].
  rewrite Ha, IH; reflexivity.
Qed.

Lemma get_group_convert (p : string -> option Z) (t : string) (df : DataFrame) :
  length (get_group t (map (convert p) df)) = length (get_group t df).
Proof.
  unfold get_group; induction df as [|r df IH]; simpl; [reflexivity|].
  assert (Hr : has_ticker t (convert p r) = has_ticker t r)
    by (unfold convert; destruct (to_datetime_cell p (DATE r)); reflexivity).
  rewrite Hr; destruct (has_ticker t r); simpl; rewrite IH; reflexivity.
Qed.

(** X10. Whatever the frame holds (missing closes, non-positive prices,
    missing dates), when the feature stage returns, a ticker with n rows in
    the input has at most n - 10 rows in the output: none when n <= 10. *)
Theorem at_most_all_but_ten (p : string -> option Z) (sqrt : Q -> Q)
  (df : DataFrame) (out : FeaturedFrame) :
  engineer_features p sqrt df = Ok out ->
  forall t, length (rows_of t out) <= length (get_group t df) - 10.
Proof.
  unfold engineer_features; intros H t.
  apply bind_Ok_inv in H; destruct H as (parsed & Hp & H).
  apply bind_Ok_inv in H; destruct H as (frames & Hframes & H).
  apply bind_Ok_inv in H; destruct H as (final_df & Hconcat & H).
  inversion H; subst out; clear H.
  assert (Hfinal : final_df = concat frames)
    by (unfold pd_concat in Hconcat; destruct frames;
        [discriminate|inversion Hconcat; reflexivity]).
  subst final_df; clear Hconcat.
  apply to_datetime_convert in Hp; destruct Hp as [Hparsed _].
  rewrite <- (get_group_convert p t df), <- Hparsed.
  set (F := fun k => match feature_frame sqrt (get_group k parsed) with
                     | Ok fr => fr
                     | Raise _ => []
                     end).
  assert (HF : forall k, In k (group_keys parsed) ->
                         feature_frame sqrt (get_group k parsed) = Ok (F k)).
  { intros k Hk; unfold F.
    apply mapM_Ok_inv in Hframes.
    unfold groupby_TICKER in Hframes.
    assert (Hall : forall tg, In tg (map (fun t => (t, get_group t parsed))
                                         (group_keys parsed)) ->
                              exists fr, feature_frame sqrt (snd tg) = Ok fr).
    { clear -Hframes; induction Hframes as [|a b l bs Ha _ IH];
        intros tg []; subst; eauto. }
    destruct (Hall (k, get_group k parsed)) as [fr Hfr];
      [apply in_map_iff; eauto|].
    simpl in Hfr; rewrite Hfr; reflexivity. }
  assert (Hmap : frames = map F (group_keys parsed)).
  { rewrite (mapM_Ok_map _ _ _ [] _ _ Hframes); unfold groupby_TICKER.
    rewrite map_map; reflexivity. }
  subst frames.
  unfold rows_of, dropna_featured; rewrite filter_filter.
  rewrite (filter_ext _ (fun x => has_ticker t (base x) && notna_featured x))
    by (intros x; apply andb_comm).
  rewrite <- filter_filter.
  assert (Hsel : filter (fun x => has_ticker t (base x))
                        (concat (map F (group_keys parsed)))
                 = if in_dec string_dec t (group_keys parsed) then F t else []).
  { apply filter_concat_keys; [apply group_keys_NoDup|].
    intros k x Hk Hx.
    apply (in_map base) in Hx.
    rewrite (proj1 (feature_frame_Ok sqrt _ _ (HF k Hk))) in Hx.
    apply sort_In, get_group_In in Hx; tauto. }
  rewrite Hsel.
  destruct (in_dec string_dec t (group_keys parsed)) as [Hin|Hin]; [|simpl; lia].
  apply (feature_frame_Ok sqrt _ _ (HF t Hin)).
Qed.

Lemma at_most_all_but_ten_witness :
  engineer_features iso_date approx_sqrt ex_dirty = Ok ex_dirty_out /\
  forall t, length (rows_of t ex_dirty_out) <= length (get_group t ex_dirty) - 10.
Proof.
  assert (H : engineer_features iso_date approx_sqrt ex_dirty = Ok ex_dirty_out)
    by (vm_compute; reflexivity).
  split; [exact H|].
  exact (at_most_all_but_ten iso_date approx_sqrt ex_dirty ex_dirty_out H).
Defined.
